(** * ClientService of @hsuite/client: a shallow embedding and its properties

    The development follows [src/client.service.ts]:

    - [JS]: the fragment of JavaScript values the service touches
      (parsed JSON bodies, property reads, [JSON.stringify], [Buffer.from],
      string templates);
    - [Binary64]: the one floating point computation of the service,
      [Math.floor(Math.random() * (network.length - 1))];
    - the service itself ([generateBaseUrl], [onModuleInit],
      [networkResilience], [connectToNode], [signNodeData] and the
      callback given to [setInterval]) written in a small state-and-exception
      monad over the fields of the class, with every interaction with the
      outside (directory, random source, HTTP transport, signing SDK, timers,
      loggers) recorded in a chronological trace and answered by a [World];
    - [Scheduler]: the timer callbacks as steps of a transition system.

    Recursion in [connectToNode] is unbounded in the source (one more
    handshake per failover); the embedding takes a bound on the number of
    handshake attempts and reports [Pending] when it is exceeded. *)

From Stdlib Require Import String List ZArith Lia Bool Ascii DecimalString.
From Stdlib Require Strings.Byte.
From Stdlib Require Floats.PrimFloat Floats.FloatOps Floats.SpecFloat.
Import ListNotations.

Set Warnings "-register-all".

Local Open Scope string_scope.
Local Open Scope Z_scope.

(* ================================================================== *)
(** * JavaScript values *)
(* ================================================================== *)

Module JS.

(** Values found in a parsed JSON body, together with [undefined] (the
    result of reading a missing property).  Strings are UTF-8 byte
    strings; numbers are the doubles.  The members of an object are
    listed in the enumeration order of its own keys. *)
Inductive jsval : Type :=
| JUndefined
| JNull
| JBool (b : bool)
| JNumber (x : PrimFloat.float)
| JString (s : string)
| JArray (items : list jsval)
| JObject (members : list (string * jsval)).

(** Errors are objects with a [name], an optional [code] (set by the
    transport: ['ECONNREFUSED'], ['ERR_BAD_REQUEST'], ...) and a
    [message]. *)
Record JsError : Type := mkError {
  name : string;
  code : option string;
  message : string
}.

Inductive Result (A : Type) : Type :=
| Resolved (a : A)
| Rejected (e : JsError).
Arguments Resolved {A} a.
Arguments Rejected {A} e.

(** [TypeError: Cannot read properties of undefined (reading 'k')]. *)
Definition TypeError_read (base : string) (k : string) : JsError :=
  mkError "TypeError" None
    ("Cannot read properties of " ++ base ++ " (reading '" ++ k ++ "')").

Fixpoint assoc (k : string) (members : list (string * jsval)) : jsval :=
  match members with
  | [] => JUndefined
  | (k', v) :: rest => if String.eqb k k' then v else assoc k rest
  end.

(** [v.k] for a key [k] that no built-in prototype defines (the service
    reads [signedData], [signature] and [payload]): a member of an object,
    [undefined] on any other non-nullish value, a [TypeError] on
    [undefined] and [null]. *)
Definition getProp (v : jsval) (k : string) : Result jsval :=
  match v with
  | JUndefined => Rejected (TypeError_read "undefined" k)
  | JNull => Rejected (TypeError_read "null" k)
  | JObject members => Resolved (assoc k members)
  | _ => Resolved JUndefined
  end.

(** Truthiness of an optional string ([if (this.clientOptions.baseUrl)]):
    [undefined] and the empty string are falsy. *)
Definition truthy (s : option string) : bool :=
  match s with
  | None => false
  | Some s => negb (String.eqb s "")
  end.

(** [`${x}`] for an optional string. *)
Definition template (s : option string) : string :=
  match s with
  | None => "undefined"
  | Some s => s
  end.

(** [s.startsWith(p)]. *)
Definition startsWith (s p : string) : bool := String.prefix p s.

(** ** [JSON.stringify] *)

Definition hexDigit (n : nat) : ascii :=
  match n with
  | 0 => "0" | 1 => "1" | 2 => "2" | 3 => "3" | 4 => "4" | 5 => "5"
  | 6 => "6" | 7 => "7" | 8 => "8" | 9 => "9" | 10 => "a" | 11 => "b"
  | 12 => "c" | 13 => "d" | 14 => "e" | _ => "f"
  end%char%nat.

(** One character of [QuoteJSONString]: the two-character escapes, the
    [\u00xx] form for the other control characters, and every other
    byte as it is. *)
Definition quoteChar (c : ascii) : string :=
  let n := nat_of_ascii c in
  if (n =? 34)%nat then "\" ++ String c ""
  else if (n =? 92)%nat then "\\"
  else if (n =? 8)%nat then "\b"
  else if (n =? 9)%nat then "\t"
  else if (n =? 10)%nat then "\n"
  else if (n =? 12)%nat then "\f"
  else if (n =? 13)%nat then "\r"
  else if (n <? 32)%nat then
    "\u00" ++ String (hexDigit (n / 16)) (String (hexDigit (n mod 16)) "")
  else String c "".

Fixpoint quoteChars (s : string) : string :=
  match s with
  | EmptyString => ""
  | String c rest => quoteChar c ++ quoteChars rest
  end.

Definition dquote : string := String (ascii_of_nat 34) "".

Definition QuoteJSONString (s : string) : string :=
  dquote ++ quoteChars s ++ dquote.

(** ** [Number::toString] *)

(** The decimal digits of a natural number. *)
Definition decimal (z : Z) : string := NilZero.string_of_uint (N.to_uint (Z.to_N z)).

Fixpoint zeros (n : nat) : string :=
  match n with
  | O => ""
  | S n => String "0" (zeros n)
  end.

(** The largest [q], searched downwards from [q] in at most [fuel] steps,
    for which a multiple [s * 10^q] rounds to the double whose value is
    [x / d], together with the [s] that is closest to it ([lo / d] and
    [hi / d] are the midpoints to the neighbouring doubles, which round to
    it when [closed]). *)
Fixpoint shortest (fuel : nat) (lo x hi d : Z) (closed : bool) (q : Z) : Z * Z :=
  match fuel with
  | O => (0, q)
  | S fuel =>
      let a := d * 10 ^ Z.max q 0 in
      let b := 10 ^ Z.max (- q) 0 in
      let first := if closed then - ((- (lo * b)) / a) else (lo * b) / a + 1 in
      let last := if closed then (hi * b) / a else - ((- (hi * b)) / a) - 1 in
      if first <=? last then
        let below := (x * b) / a in
        let rest := (x * b) mod a in
        let nearest := if 2 * rest <? a then below
                       else if a <? 2 * rest then below + 1
                       else if Z.even below then below else below + 1 in
        (Z.min (Z.max nearest first) last, q)
      else shortest fuel lo x hi d closed (q - 1)
  end.

(** The text of the positive double [m * 2^e] (steps 5 to 11 of
    [Number::toString] for radix 10). *)
Definition positive_text (m : positive) (e : Z) : string :=
  let u := 2 ^ Z.max e 0 in
  let d := 4 * 2 ^ Z.max (- e) 0 in
  let x := 4 * Z.pos m * u in
  let hi := x + 2 * u in
  let lo := if (Z.pos m =? 2 ^ 52) && (-1074 <? e) then x - u else x - 2 * u in
  let start := (Z.log2 (Z.pos m) + e + 2) * 30103 / 100000 + 2 in
  let (s, q) := shortest 1500 lo x hi d (Z.even (Z.pos m)) start in
  let digits := decimal s in
  let k := Z.of_nat (String.length digits) in
  let n := k + q in
  if (-5 <=? n) && (n <=? 21) then
    if k <=? n then digits ++ zeros (Z.to_nat (n - k))
    else if 0 <? n then
      substring 0 (Z.to_nat n) digits ++ "." ++
      substring (Z.to_nat n) (Z.to_nat (k - n)) digits
    else "0." ++ zeros (Z.to_nat (- n)) ++ digits
  else
    let exponent := (if 0 <? n - 1 then "+" else "-") ++ decimal (Z.abs (n - 1)) in
    if k =? 1 then digits ++ "e" ++ exponent
    else substring 0 1 digits ++ "." ++ substring 1 (Z.to_nat (k - 1)) digits
         ++ "e" ++ exponent.

(** [Number::toString(x, 10)]: the shortest decimal numeral that reads
    back as [x] (the closest one to [x] when several have that length),
    written without exponent from [1e-6] up to, and not including, [1e21],
    and as [d.ddde+n] or [d.ddde-n] elsewhere. *)
Definition Number_toString (x : PrimFloat.float) : string :=
  match FloatOps.Prim2SF x with
  | SpecFloat.S754_zero _ => "0"
  | SpecFloat.S754_infinity false => "Infinity"
  | SpecFloat.S754_infinity true => "-Infinity"
  | SpecFloat.S754_nan => "NaN"
  | SpecFloat.S754_finite false m e => positive_text m e
  | SpecFloat.S754_finite true m e => "-" ++ positive_text m e
  end.

(** [SerializeJSONProperty]: [None] stands for the [undefined] result,
    which drops the member of an object and prints as [null] in an
    array.  A finite number is printed by [Number::toString], the other
    numbers as [null]. *)
Fixpoint SerializeJSONProperty (v : jsval) : option string :=
  match v with
  | JUndefined => None
  | JNull => Some "null"
  | JBool true => Some "true"
  | JBool false => Some "false"
  | JNumber x => Some (if PrimFloat.is_finite x then Number_toString x else "null")
  | JString s => Some (QuoteJSONString s)
  | JArray items =>
      Some ("[" ++ String.concat ","
              (map (fun x => match SerializeJSONProperty x with
                             | Some t => t
                             | None => "null"
                             end) items) ++ "]")
  | JObject members =>
      Some ("{" ++ String.concat ","
              (flat_map (fun kv => match SerializeJSONProperty (snd kv) with
                                   | Some t => [QuoteJSONString (fst kv) ++ ":" ++ t]
                                   | None => []
                                   end) members) ++ "}")
  end.

(** [JSON.stringify(o)] for an object [o] (never [undefined]). *)
Definition JSON_stringify_object (members : list (string * jsval)) : string :=
  match SerializeJSONProperty (JObject members) with
  | Some t => t
  | None => ""
  end.

(** [new Uint8Array(Buffer.from(s))]: the UTF-8 bytes of [s]. *)
Definition Buffer_from (s : string) : list Byte.byte := list_byte_of_string s.

End JS.
Import JS.

(* ================================================================== *)
(** * The random index *)
(* ================================================================== *)

Module Binary64.

(** Significand width of a double. *)
Definition prec : Z := 53.

(** Rounding of a non-negative integer to [prec] significant bits, to
    nearest with ties to even: the rounding of a double multiplication
    whose exact result is [n] units of a fixed power of two. *)
Definition round (n : Z) : Z :=
  let s := Z.log2 n + 1 - prec in
  if s <=? 0 then n
  else
    let q := Z.shiftr n s in
    let r := n - Z.shiftl q s in
    let half := Z.shiftl 1 (s - 1) in
    let q' := if (half <? r) || ((r =? half) && Z.odd q) then q + 1 else q in
    Z.shiftl q' s.

(** [Math.random()] yields a double [k / 2^53] with [0 <= k < 2^53]; a
    draw is given by any integer, reduced to such a [k]. *)
Definition mantissa (draw : Z) : Z := draw mod 2 ^ prec.

(** [Math.floor(Math.random() * m)] for an integer [m] (exact as a
    double): the exact product is [mantissa draw * m] units of [2^-53],
    it is rounded to a double and then floored.  (A result [-0] is
    given as [0]: both name the array index [0].) *)
Definition floor_mul (draw m : Z) : Z :=
  let p := mantissa draw * m in
  (Z.sgn p * round (Z.abs p)) / 2 ^ prec.

End Binary64.

(* ================================================================== *)
(** * Types of the collaborating packages *)
(* ================================================================== *)

(** [@hsuite/smart-network-types]: what the service reads of a directory
    entry, [entity.membership.operator] and its [url]. *)
Module ISmartNetwork.
Record IOperator : Type := {
  accountId : string;
  url : string
}.
Record IMembership : Type := { operator : IOperator }.
Record INetworkEntity : Type := { membership : IMembership }.
End ISmartNetwork.

(** [@hsuite/client-types]: the injected ['clientOptions']. *)
Module IClient.
Record IOperator : Type := {
  accountId : string;
  privateKey : string;
  publicKey : string;
  url : string
}.
Record IOptions : Type := {
  baseUrl : option string;
  operator : IOperator
}.
End IClient.

(** [@hsuite/auth-types]: the sign-in request. *)
Module IAuth.
Record ISignedPayload : Type := {
  serverSignature : jsval;
  originalPayload : jsval
}.
Record ISignedData : Type := {
  signedPayload : ISignedPayload;
  userSignature : list Byte.byte
}.
Record INft : Type := { id : jsval; serialNumber : jsval }.
Record IOperator : Type := {
  accountId : string;
  publicKey : string;
  url : string;
  nft : INft
}.
Record ILogin : Type := {
  signedData : ISignedData;
  operator : IOperator
}.

(** The own enumerable properties of a payload built by the object
    literal [{ serverSignature: ..., originalPayload: ... }], in creation
    order. *)
Definition members (p : ISignedPayload) : list (string * jsval) :=
  [("serverSignature", serverSignature p);
   ("originalPayload", originalPayload p)].
End IAuth.

(** A parsed [PrivateKey] of [@hashgraph/sdk]. *)
Definition PrivateKey : Type := string.

(* ================================================================== *)
(** * The outside world and the state of the service *)
(* ================================================================== *)

(** Every interaction of the service with its collaborators, in the order
    in which the source performs them. *)
Inductive Event : Type :=
| GetNodes
| MathRandom
| HttpGet (baseURL : option string) (path : string)
| HttpPost (baseURL : option string) (path : string) (body : IAuth.ILogin)
| Sign (bytes : list Byte.byte)
| SetInterval (timer : nat)
| ClearInterval (timer : nat)
| LoggerVerbose (msg : string)
| LoggerError (msg : string)
| ConsoleLog (v : jsval).

(** The answers of the collaborators.  The [nat] argument is the number of
    events that precede the call, so that an answer may depend on when it
    is asked for. *)
Record World : Type := {
  getNodes : nat -> Result (list ISmartNetwork.INetworkEntity);
  Math_random : nat -> Z;
  axios_get : nat -> option string -> string -> Result jsval;
  axios_post : nat -> option string -> string -> IAuth.ILogin -> Result jsval;
  PrivateKey_fromString : string -> Result PrivateKey;
  PrivateKey_sign : nat -> PrivateKey -> list Byte.byte -> list Byte.byte
}.

(** The mutable fields: [this._login], [this._operator],
    [this.httpService.axiosRef.defaults.baseURL], and the trace. *)
Record State : Type := {
  _login : jsval;
  _operator : option ISmartNetwork.IOperator;
  baseURL : option string;
  trace : list Event
}.

(** The state after construction: nothing is assigned yet. *)
Definition initial : State :=
  {| _login := JUndefined; _operator := None; baseURL := None; trace := [] |}.

(** Field updates. *)
Definition with_trace (s : State) (tr : list Event) : State :=
  {| _login := _login s; _operator := _operator s;
     baseURL := baseURL s; trace := tr |}.

Definition with_login (s : State) (v : jsval) : State :=
  {| _login := v; _operator := _operator s;
     baseURL := baseURL s; trace := trace s |}.

Definition with_operator (s : State) (o : ISmartNetwork.IOperator) : State :=
  {| _login := _login s; _operator := Some o;
     baseURL := baseURL s; trace := trace s |}.

Definition with_baseURL (s : State) (u : option string) : State :=
  {| _login := _login s; _operator := _operator s;
     baseURL := u; trace := trace s |}.

(** The timers that are scheduled after a trace. *)
Definition timer_step (active : list nat) (e : Event) : list nat :=
  match e with
  | SetInterval i => active ++ [i]
  | ClearInterval i => filter (fun j => negb (Nat.eqb j i)) active
  | _ => active
  end.

Definition timers (tr : list Event) : list nat := fold_left timer_step tr [].

(** The transport requests of a trace. *)
Definition is_http (e : Event) : bool :=
  match e with
  | HttpGet _ _ | HttpPost _ _ _ => true
  | _ => false
  end.

(** The node selections of a trace: directory queries and random draws. *)
Definition is_selection (e : Event) : bool :=
  match e with
  | GetNodes | MathRandom => true
  | _ => false
  end.

Definition is_timer (e : Event) : bool :=
  match e with
  | SetInterval _ | ClearInterval _ => true
  | _ => false
  end.

Definition is_error_log (e : Event) : bool :=
  match e with
  | LoggerError _ => true
  | _ => false
  end.

(* ================================================================== *)
(** * The monad of the service *)
(* ================================================================== *)

(** A computation ends by returning, by throwing, or is still pending when
    the bound on handshake attempts is used up; the state reached is kept
    in each case. *)
Inductive Outcome (A : Type) : Type :=
| Returned (a : A) (s : State)
| Thrown (e : JsError) (s : State)
| Pending (s : State).
Arguments Returned {A} a s.
Arguments Thrown {A} e s.
Arguments Pending {A} s.

Definition M (A : Type) : Type := State -> Outcome A.

Definition ret {A} (a : A) : M A := fun s => Returned a s.

Definition bind {A B} (m : M A) (k : A -> M B) : M B :=
  fun s =>
    match m s with
    | Returned a s' => k a s'
    | Thrown e s' => Thrown e s'
    | Pending s' => Pending s'
    end.

Definition throw {A} (e : JsError) : M A := fun s => Thrown e s.

Definition try_catch {A} (body : M A) (handler : JsError -> M A) : M A :=
  fun s =>
    match body s with
    | Thrown e s' => handler e s'
    | o => o
    end.

Definition await {A} (r : Result A) : M A :=
  match r with
  | Resolved a => ret a
  | Rejected e => throw e
  end.

Definition get_state : M State := fun s => Returned s s.

Definition emit (e : Event) : M unit :=
  fun s => Returned tt (with_trace s (trace s ++ [e])).

Definition set_login (v : jsval) : M unit :=
  fun s => Returned tt (with_login s v).

Definition set_operator (o : ISmartNetwork.IOperator) : M unit :=
  fun s => Returned tt (with_operator s o).

Definition set_baseURL (u : option string) : M unit :=
  fun s => Returned tt (with_baseURL s u).

(** The clock handed to the world. *)
Definition now : M nat := fun s => Returned (length (trace s)) s.

Declare Scope js_scope.
Delimit Scope js_scope with js.
Notation "x <- m ;; k" := (bind m (fun x => k))
  (at level 61, m at next level, right associativity) : js_scope.
Notation "m ;; k" := (bind m (fun _ => k))
  (at level 61, right associativity) : js_scope.
Local Open Scope js_scope.

(** [xs[i]] for an integer [i]: [undefined] outside of [0 .. length-1]. *)
Definition array_get {A} (xs : list A) (i : Z) : option A :=
  if i <? 0 then None else nth_error xs (Z.to_nat i).

(* ================================================================== *)
(** * ClientService *)
(* ================================================================== *)

Section ClientService.

Variable w : World.
Variable clientOptions : IClient.IOptions.

(** [get login()] and [get operator()]. *)
Definition login (s : State) : jsval := _login s.
Definition operator (s : State) : option ISmartNetwork.IOperator := _operator s.

(** The value of [randomNode] for a directory of [len] entries. *)
Definition randomNode (draw : Z) (len : nat) : Z :=
  Binary64.floor_mul draw (Z.of_nat len - 1).

(** [generateBaseUrl]: query the directory, draw an index, record the
    operator of the entry and return its URL.  Reading [.membership] of a
    missing entry throws. *)
Definition generateBaseUrl : M string :=
  t <- now ;;
  emit GetNodes ;;
  network <- await (getNodes w t) ;;
  t' <- now ;;
  emit MathRandom ;;
  match array_get network (randomNode (Math_random w t') (length network)) with
  | None => throw (TypeError_read "undefined" "membership")
  | Some entity =>
      set_operator (ISmartNetwork.operator (ISmartNetwork.membership entity)) ;;
      ret (ISmartNetwork.url
             (ISmartNetwork.operator (ISmartNetwork.membership entity)))
  end.

(** The test [['ECONNREFUSED','ECONNABORTED','ECONNRESET'].includes(error.code)]. *)
Definition recoverable_codes : list string :=
  ["ECONNREFUSED"; "ECONNABORTED"; "ECONNRESET"].

Definition includes (codes : list string) (c : option string) : bool :=
  match c with
  | None => false
  | Some c => existsb (String.eqb c) codes
  end.

(** [networkResilience]. *)
Definition networkResilience (error : JsError) : M unit :=
  if includes recoverable_codes (code error) then
    u <- generateBaseUrl ;;
    set_baseURL (Some u)
  else throw error.

(** The bytes handed to [privateKey.sign]:
    [new Uint8Array(Buffer.from(JSON.stringify(payload)))]. *)
Definition signing_bytes (payload : IAuth.ISignedPayload) : list Byte.byte :=
  Buffer_from (JSON_stringify_object (IAuth.members payload)).

(** The object that [signNodeData] returns. *)
Definition envelope (payload : IAuth.ISignedPayload) (signature : list Byte.byte)
  : IAuth.ILogin :=
  {| IAuth.signedData :=
       {| IAuth.signedPayload := payload;
          IAuth.userSignature := signature |};
     IAuth.operator :=
       {| IAuth.accountId := IClient.accountId (IClient.operator clientOptions);
          IAuth.publicKey := IClient.publicKey (IClient.operator clientOptions);
          IAuth.url := IClient.url (IClient.operator clientOptions);
          IAuth.nft := {| IAuth.id := JNull; IAuth.serialNumber := JNull |} |} |}.

(** [signNodeData]: parse the key (which may throw), serialise, sign. *)
Definition signNodeData (payload : IAuth.ISignedPayload) : M IAuth.ILogin :=
  privateKey <- await (PrivateKey_fromString w
                         (IClient.privateKey (IClient.operator clientOptions))) ;;
  let bytes := signing_bytes payload in
  t <- now ;;
  emit (Sign bytes) ;;
  let signature := PrivateKey_sign w t privateKey bytes in
  ret (envelope payload signature).

(** The object literal
    [{ serverSignature: authRequest.data.signedData.signature,
       originalPayload: authRequest.data.payload }],
    whose property reads may throw. *)
Definition payload_of (data : jsval) : Result IAuth.ISignedPayload :=
  match getProp data "signedData" with
  | Rejected e => Rejected e
  | Resolved signedData =>
      match getProp signedData "signature" with
      | Rejected e => Rejected e
      | Resolved signature =>
          match getProp data "payload" with
          | Rejected e => Rejected e
          | Resolved original =>
              Resolved {| IAuth.serverSignature := signature;
                          IAuth.originalPayload := original |}
          end
      end
  end.

(** The body of the outer [try] of [connectToNode]: one handshake
    attempt against the current base URL, ending with the registration
    of the health check. *)
Definition handshake : M jsval :=
  s <- get_state ;;
  t <- now ;;
  emit (HttpGet (baseURL s) "/auth/web3/request") ;;
  data <- await (axios_get w t (baseURL s) "/auth/web3/request") ;;
  payload <- await (payload_of data) ;;
  signed <- signNodeData payload ;;
  s' <- get_state ;;
  t' <- now ;;
  emit (HttpPost (baseURL s') "/auth/web3/login" signed) ;;
  loginRequest <- await (axios_post w t' (baseURL s') "/auth/web3/login" signed) ;;
  interval <- now ;;
  emit (SetInterval interval) ;;
  ret loginRequest.

(** [connectToNode], with a bound on the number of attempts.  With a
    configured [baseUrl] a failed attempt rejects; otherwise
    [networkResilience] decides, and the promise settles as the next
    [connectToNode] does. *)
Fixpoint connectToNode (attempts : nat) : M jsval :=
  match attempts with
  | O => fun s => Pending s
  | S attempts' =>
      try_catch handshake (fun error =>
        if truthy (IClient.baseUrl clientOptions) then throw error
        else
          networkResilience error ;;
          connectToNode attempts')
  end.

(** The first statement of [onModuleInit]: the base URL is the
    configured one, or else the URL of a selected node. *)
Definition resolveBaseUrl : M unit :=
  if truthy (IClient.baseUrl clientOptions)
  then set_baseURL (IClient.baseUrl clientOptions)
  else (u <- generateBaseUrl ;; set_baseURL (Some u)).

(** The [try] block of [onModuleInit]. *)
Definition startup (attempts : nat) : M unit :=
  resolveBaseUrl ;;
  s <- get_state ;;
  match baseURL s with
  | None => throw (TypeError_read "undefined" "startsWith")
  | Some u =>
      if startsWith u "http" then
        emit (LoggerVerbose ("trying to connect with " ++ u ++ "...")) ;;
        l <- connectToNode attempts ;;
        set_login l ;;
        s' <- get_state ;;
        emit (LoggerVerbose ("connected to node: " ++ template (baseURL s')))
      else ret tt
  end.

(** The message of the [catch] block of [onModuleInit]. *)
Definition failure_message (s : State) (error : JsError) : string :=
  "failed to connect to node: " ++ template (baseURL s)
    ++ ": " ++ template (code error).

(** [onModuleInit]. *)
Definition onModuleInit (attempts : nat) : M unit :=
  try_catch (startup attempts)
    (fun error =>
       s <- get_state ;;
       emit (LoggerError (failure_message s error))).

(** The callback given to [setInterval], in its two halves: the request
    that it awaits, and its continuation once the request has settled.
    The result of the inner [connectToNode] is dropped. *)
Definition profile_request : M (Result jsval) :=
  s <- get_state ;;
  t <- now ;;
  emit (HttpGet (baseURL s) "/auth/profile") ;;
  ret (axios_get w t (baseURL s) "/auth/profile").

Definition healthCheck_resume (attempts interval : nat) (r : Result jsval) : M unit :=
  match r with
  | Resolved profile => emit (ConsoleLog profile)
  | Rejected _ =>
      emit (ClearInterval interval) ;;
      connectToNode attempts ;;
      ret tt
  end.

(** One run of the callback that is not interleaved with anything. *)
Definition healthCheck (attempts interval : nat) : M unit :=
  r <- profile_request ;;
  healthCheck_resume attempts interval r.

End ClientService.

(* ================================================================== *)
(** * Timers *)
(* ================================================================== *)

Definition state_of {A} (o : Outcome A) : State :=
  match o with
  | Returned _ s | Thrown _ s | Pending s => s
  end.

Module Scheduler.

(** The service together with the health checks whose request has been
    sent and has not settled yet: the timer that fired and the answer
    that the transport will deliver. *)
Record Sys : Type := {
  client : State;
  inflight : list (nat * Result jsval)
}.

(** What the event loop does next: a scheduled timer fires and its
    callback runs up to its [await]; or the request of the [k]-th
    callback in flight settles and the callback runs to its end.
    [setInterval] does not wait for the promise of an [async] callback, and
    the transport is created by [HttpModule.register({})], without a
    timeout: a timer may fire while the request of an earlier callback is
    still in flight. *)
Inductive Step : Type :=
| Fire (timer : nat)
| Settle (k : nat).

Fixpoint remove_nth {A} (k : nat) (xs : list A) : list A :=
  match xs, k with
  | [], _ => []
  | _ :: rest, O => rest
  | x :: rest, S k' => x :: remove_nth k' rest
  end.

Section Run.

Variable w : World.
Variable clientOptions : IClient.IOptions.
Variable attempts : nat.

(** A timer that is not scheduled does not fire.  Nobody awaits the
    promise of a callback: when it rejects, the state stays as the
    callback left it. *)
Definition step (sys : Sys) (st : Step) : Sys :=
  match st with
  | Fire i =>
      if existsb (Nat.eqb i) (timers (trace (client sys))) then
        match profile_request w (client sys) with
        | Returned r s => {| client := s; inflight := inflight sys ++ [(i, r)] |}
        | _ => sys
        end
      else sys
  | Settle k =>
      match nth_error (inflight sys) k with
      | None => sys
      | Some (i, r) =>
          {| client := state_of (healthCheck_resume w clientOptions attempts
                                   i r (client sys));
             inflight := remove_nth k (inflight sys) |}
      end
  end.

Definition run (sys : Sys) (steps : list Step) : Sys :=
  fold_left step steps sys.

(** The system once [onModuleInit] has run on a fresh service. *)
Definition boot : Sys :=
  {| client := state_of (onModuleInit w clientOptions attempts initial);
     inflight := [] |}.

(** A health check that runs to its end before anything else happens:
    the timer fires and the request settles at once. *)
Definition tick (timer : nat) : list Step := [Fire timer; Settle 0].

Definition serial (fired : list nat) : list Step := flat_map tick fired.

End Run.

End Scheduler.

(* ================================================================== *)
(** * Vocabulary of the statements *)
(* ================================================================== *)

Local Open Scope list_scope.

(** The events of a handshake attempt before the timer is registered. *)
Definition is_exchange (e : Event) : bool :=
  match e with
  | HttpGet _ _ | HttpPost _ _ _ | Sign _ => true
  | _ => false
  end.

Definition no_timer (evs : list Event) : Prop :=
  Forall (fun e => is_timer e = false) evs.

(** Events that register at most one timer and cancel none. *)
Inductive one_start : list Event -> Prop :=
| one_start_none pre : no_timer pre -> one_start pre
| one_start_set pre i post :
    no_timer pre -> no_timer post -> one_start (pre ++ SetInterval i :: post).

(** What a run of [connectToNode] from [s] may leave behind: [_login] is
    untouched, and the trace grows by events without timers, closed by one
    [SetInterval] exactly when the promise resolves. *)
Definition settles_like {A} (s : State) (o : Outcome A) : Prop :=
  match o with
  | Returned _ s' =>
      exists pre i, _login s' = _login s /\
                    trace s' = trace s ++ pre ++ [SetInterval i] /\ no_timer pre
  | Thrown _ s' | Pending s' =>
      exists pre, _login s' = _login s /\ trace s' = trace s ++ pre /\ no_timer pre
  end.

(** At every point of the trace at most one timer is scheduled. *)
Definition bounded (tr : list Event) : Prop :=
  forall p q, tr = p ++ q -> (length (timers p) <= 1)%nat.

(** The state after [generateBaseUrl] has picked [entity]. *)
Definition selected (s : State) (entity : ISmartNetwork.INetworkEntity) : State :=
  with_operator (with_trace s (trace s ++ [GetNodes; MathRandom]))
    (ISmartNetwork.operator (ISmartNetwork.membership entity)).

(** The failure that the specification names [EmptyDirectory]: the source
    has no error class of its own for it; on an empty directory
    [network[randomNode]] is [undefined] and reading [.membership] throws. *)
Definition EmptyDirectory : JsError := TypeError_read "undefined" "membership".

(** The states around the log lines of [onModuleInit]. *)
Definition logged (s : State) (error : JsError) : State :=
  with_trace s (trace s ++ [LoggerError (failure_message s error)]).

Definition connecting (s : State) (u : string) : State :=
  with_trace s (trace s ++ [LoggerVerbose ("trying to connect with " ++ u ++ "...")]).

Definition connected (s : State) (l : jsval) : State :=
  with_trace (with_login s l)
    (trace s ++ [LoggerVerbose ("connected to node: " ++ template (baseURL s))]).

(* ================================================================== *)
(** * Concrete worlds *)
(* ================================================================== *)

Module Examples.

Definition node (account u : string) : ISmartNetwork.INetworkEntity :=
  {| ISmartNetwork.membership :=
       {| ISmartNetwork.operator :=
            {| ISmartNetwork.accountId := account; ISmartNetwork.url := u |} |} |}.

Definition node_a := node "0.0.100" "http://node-a".
Definition node_b := node "0.0.101" "http://node-b".

Definition identity : IClient.IOperator :=
  {| IClient.accountId := "0.0.7";
     IClient.privateKey := "302e020100300506032b657004220420";
     IClient.publicKey := "302a300506032b6570032100";
     IClient.url := "http://operator" |}.

(** Dynamic selection, and a pinned base URL. *)
Definition dynamic : IClient.IOptions :=
  {| IClient.baseUrl := None; IClient.operator := identity |}.
Definition pinned : IClient.IOptions :=
  {| IClient.baseUrl := Some "http://node-a"; IClient.operator := identity |}.
(** A configured value that is not a URL. *)
Definition offline : IClient.IOptions :=
  {| IClient.baseUrl := Some "disabled"; IClient.operator := identity |}.

Definition challenge : jsval :=
  JObject [("signedData", JObject [("signature", JString "S")]);
           ("payload", JString "P")].

Definition token (t : string) : jsval := JObject [("token", JString t)].

Definition refused : JsError :=
  mkError "AxiosError" (Some "ECONNREFUSED") "connect ECONNREFUSED".
Definition unauthorized : JsError :=
  mkError "AxiosError" (Some "ERR_BAD_REQUEST") "Request failed with status code 401".
Definition bad_key : JsError :=
  mkError "BadKeyError" None "invalid private key".

(** Both nodes answer the handshake, the first login yields [T1] and the
    later ones [T2]; every health check is answered with 401. *)
Definition healthy : World :=
  {| getNodes := fun _ => Resolved [node_a; node_b];
     Math_random := fun _ => 2 ^ 53 - 1;
     axios_get := fun _ _ path =>
       if String.eqb path "/auth/profile" then Rejected unauthorized
       else Resolved challenge;
     axios_post := fun t _ _ _ =>
       if (t <? 6)%nat then Resolved (token "T1") else Resolved (token "T2");
     PrivateKey_fromString := fun k => Resolved k;
     PrivateKey_sign := fun _ k bytes => bytes |}.

(** Nothing listens: every request is refused, and the directory is
    empty. *)
Definition deserted : World :=
  {| getNodes := fun _ => Resolved [];
     Math_random := fun _ => 2 ^ 52;
     axios_get := fun _ _ _ => Rejected refused;
     axios_post := fun _ _ _ _ => Rejected refused;
     PrivateKey_fromString := fun k => Resolved k;
     PrivateKey_sign := fun _ k bytes => bytes |}.

(** [node-a] refuses connections and [node-b] answers. *)
Definition half_down : World :=
  {| getNodes := fun _ => Resolved [node_a; node_b];
     Math_random := fun t => Z.of_nat t * 2 ^ 50 + 2 ^ 52;
     axios_get := fun _ base _ =>
       if String.eqb (template base) "http://node-a" then Rejected refused
       else Resolved challenge;
     axios_post := fun _ _ _ _ => Resolved (token "T2");
     PrivateKey_fromString := fun k => Resolved k;
     PrivateKey_sign := fun _ k bytes => bytes |}.

(** The transport answers, the login endpoint rejects with 401. *)
Definition rejecting : World :=
  {| getNodes := fun _ => Resolved [node_a];
     Math_random := fun _ => 0;
     axios_get := fun _ _ _ => Resolved challenge;
     axios_post := fun _ _ _ _ => Rejected unauthorized;
     PrivateKey_fromString := fun k => Resolved k;
     PrivateKey_sign := fun _ k bytes => bytes |}.

End Examples.

(* ================================================================== *)
(** * Further vocabulary *)
(* ================================================================== *)

(** Challenge requests, directory queries, logger lines, and the two
    steps that need the operator's key. *)
Definition is_challenge (e : Event) : bool :=
  match e with
  | HttpGet _ path => String.eqb path "/auth/web3/request"
  | _ => false
  end.

Definition is_directory_query (e : Event) : bool :=
  match e with
  | GetNodes => true
  | _ => false
  end.

Definition is_logger (e : Event) : bool :=
  match e with
  | LoggerVerbose _ | LoggerError _ => true
  | _ => false
  end.

Definition is_signature_or_login (e : Event) : bool :=
  match e with
  | Sign _ | HttpPost _ _ _ => true
  | _ => false
  end.

Definition count (f : Event -> bool) (tr : list Event) : nat := length (filter f tr).

(** [null] and [undefined]. *)
Definition nullish (v : jsval) : bool :=
  match v with
  | JUndefined | JNull => true
  | _ => false
  end.

(** The recorded operator is the node that the transport points at. *)
Definition coherent (s : State) : Prop :=
  exists o, _operator s = Some o /\ baseURL s = Some (ISmartNetwork.url o).

(** Nothing was ever selected: no operator, the configured base URL, no
    directory query and no draw. *)
Definition pinned_at (opts : IClient.IOptions) (s : State) : Prop :=
  _operator s = None /\ baseURL s = IClient.baseUrl opts /\
  filter is_selection (trace s) = [].

(** [s'] differs from [s] by health checks that found the session alive. *)
Definition only_checked (s s' : State) : Prop :=
  _login s' = _login s /\ _operator s' = _operator s /\ baseURL s' = baseURL s /\
  timers (trace s') = timers (trace s) /\
  count is_challenge (trace s') = count is_challenge (trace s).

(** Challenge requests against directory queries among the events of a
    run of [connectToNode]: each failover queries the directory once and
    is followed by one more challenge request. *)
Definition balance (o : Outcome jsval) (evs : list Event) : Prop :=
  match o with
  | Returned _ _ => count is_challenge evs = S (count is_directory_query evs)
  | Thrown _ _ => count is_challenge evs = S (count is_directory_query evs)
                  \/ count is_challenge evs = count is_directory_query evs
  | Pending _ => count is_challenge evs = count is_directory_query evs
  end.

(* ================================================================== *)
(** * More concrete worlds *)
(* ================================================================== *)

Module Scenarios.

(** One node; the first challenge request is refused, the later ones are
    answered. *)
Definition flaky : World :=
  {| getNodes := fun _ => Resolved [Examples.node_a];
     Math_random := fun _ => 2 ^ 53 - 1;
     axios_get := fun t _ _ =>
       if (t <? 3)%nat then Rejected Examples.refused else Resolved Examples.challenge;
     axios_post := fun _ _ _ _ => Resolved (Examples.token "T1");
     PrivateKey_fromString := fun k => Resolved k;
     PrivateKey_sign := fun _ k bytes => bytes |}.

(** Two nodes are listed and every request is refused. *)
Definition unreachable : World :=
  {| getNodes := fun _ => Resolved [Examples.node_a; Examples.node_b];
     Math_random := fun t => Z.of_nat t * 2 ^ 47;
     axios_get := fun _ _ _ => Rejected Examples.refused;
     axios_post := fun _ _ _ _ => Rejected Examples.refused;
     PrivateKey_fromString := fun k => Resolved k;
     PrivateKey_sign := fun _ k bytes => bytes |}.


(** Every request is answered; the health check returns a profile. *)
Definition steady : World :=
  {| getNodes := fun _ => Resolved [Examples.node_a];
     Math_random := fun _ => 1;
     axios_get := fun _ _ path =>
       if String.eqb path "/auth/profile"
       then Resolved (JObject [("accountId", JString "0.0.7")])
       else Resolved Examples.challenge;
     axios_post := fun _ _ _ _ => Resolved (Examples.token "T1");
     PrivateKey_fromString := fun k => Resolved k;
     PrivateKey_sign := fun _ k bytes => bytes |}.

(** The challenge endpoint answers with a body without [signedData]. *)
Definition garbled : World :=
  {| getNodes := fun _ => Resolved [Examples.node_a];
     Math_random := fun _ => 1;
     axios_get := fun _ _ _ => Resolved (JObject [("payload", JString "P")]);
     axios_post := fun _ _ _ _ => Resolved (Examples.token "T1");
     PrivateKey_fromString := fun k => Resolved k;
     PrivateKey_sign := fun _ k bytes => bytes |}.

(** The signing library rejects the configured private key. *)
Definition keyless : World :=
  {| getNodes := fun _ => Resolved [Examples.node_a];
     Math_random := fun _ => 1;
     axios_get := fun _ _ _ => Resolved Examples.challenge;
     axios_post := fun _ _ _ _ => Resolved (Examples.token "T1");
     PrivateKey_fromString := fun _ => Rejected Examples.bad_key;
     PrivateKey_sign := fun _ k bytes => bytes |}.

Import PrimFloat.

(** A challenge whose signature holds a quote, a backslash and a line feed
    and whose payload nests an object, a number and an array. *)
Definition nested_payload : IAuth.ISignedPayload :=
  {| IAuth.serverSignature :=
       JString (String "S" (String "034" (String "092" (String "010" ""))));
     IAuth.originalPayload :=
       JObject [("node", JString "0.0.100");
                ("nonce", JNumber 42%float);
                ("tags", JArray [JBool true; JNull])] |}.

End Scenarios.

(* ================================================================== *)
(** * Equations of the service *)
(* ================================================================== *)

Ltac fields :=
  cbn [trace baseURL _login _operator
       with_trace with_login with_operator with_baseURL].

Ltac run :=
  unfold bind, ret, throw, emit, now, get_state, await, try_catch,
    set_login, set_operator, set_baseURL;
  fields.

Lemma clock_snoc (tr : list Event) (e : Event) : length (tr ++ [e]) = S (length tr).
Proof. rewrite length_app. cbn. lia. Qed.

Lemma append_assoc (a b c : string) : ((a ++ b) ++ c)%string = (a ++ b ++ c)%string.
Proof. induction a as [|x a IH]; cbn; [reflexivity | now rewrite IH]. Qed.

Section Equations.

Variable w : World.
Variable opts : IClient.IOptions.

Lemma generateBaseUrl_eq s :
  generateBaseUrl w s =
  match getNodes w (length (trace s)) with
  | Rejected e => Thrown e (with_trace s (trace s ++ [GetNodes]))
  | Resolved network =>
      match array_get network
              (randomNode (Math_random w (S (length (trace s)))) (length network)) with
      | None => Thrown EmptyDirectory (with_trace s (trace s ++ [GetNodes; MathRandom]))
      | Some entity =>
          Returned (ISmartNetwork.url
                      (ISmartNetwork.operator (ISmartNetwork.membership entity)))
            (selected s entity)
      end
  end.
Proof.
  unfold generateBaseUrl. run.
  destruct (getNodes w (length (trace s))) as [network|e]; run; [|reflexivity].
  rewrite clock_snoc.
  destruct (array_get network _); unfold selected, with_trace, with_operator; fields;
    rewrite <- app_assoc; reflexivity.
Qed.

Lemma networkResilience_eq error s :
  networkResilience w error s =
  if includes recoverable_codes (code error) then
    match generateBaseUrl w s with
    | Returned u s' => Returned tt (with_baseURL s' (Some u))
    | Thrown e s' => Thrown e s'
    | Pending s' => Pending s'
    end
  else Thrown error s.
Proof. unfold networkResilience. destruct (includes _ _); reflexivity. Qed.

Lemma signNodeData_eq payload s :
  signNodeData w opts payload s =
  match PrivateKey_fromString w (IClient.privateKey (IClient.operator opts)) with
  | Rejected e => Thrown e s
  | Resolved k =>
      Returned (envelope opts payload
                  (PrivateKey_sign w (length (trace s)) k (signing_bytes payload)))
        (with_trace s (trace s ++ [Sign (signing_bytes payload)]))
  end.
Proof.
  unfold signNodeData. run.
  destruct (PrivateKey_fromString w _); run; reflexivity.
Qed.

Lemma handshake_eq s :
  handshake w opts s =
  let t := length (trace s) in
  let get := HttpGet (baseURL s) "/auth/web3/request" in
  match axios_get w t (baseURL s) "/auth/web3/request" with
  | Rejected e => Thrown e (with_trace s (trace s ++ [get]))
  | Resolved data =>
    match payload_of data with
    | Rejected e => Thrown e (with_trace s (trace s ++ [get]))
    | Resolved payload =>
      match PrivateKey_fromString w (IClient.privateKey (IClient.operator opts)) with
      | Rejected e => Thrown e (with_trace s (trace s ++ [get]))
      | Resolved k =>
        let signed := envelope opts payload
                        (PrivateKey_sign w (S t) k (signing_bytes payload)) in
        let post := HttpPost (baseURL s) "/auth/web3/login" signed in
        match axios_post w (S (S t)) (baseURL s) "/auth/web3/login" signed with
        | Rejected e =>
            Thrown e (with_trace s
                        (trace s ++ [get; Sign (signing_bytes payload); post]))
        | Resolved l =>
            Returned l (with_trace s
                          (trace s ++ [get; Sign (signing_bytes payload); post;
                                       SetInterval (S (S (S t)))]))
        end
      end
    end
  end.
Proof.
  unfold handshake. run. cbv zeta.
  destruct (axios_get w _ _ _) as [data|e]; run; [|reflexivity].
  destruct (payload_of data) as [payload|e]; run; [|reflexivity].
  rewrite signNodeData_eq.
  destruct (PrivateKey_fromString w _) as [k|e]; run; [|reflexivity].
  rewrite !clock_snoc.
  destruct (axios_post w _ _ _ _) as [l|e]; run;
    unfold with_trace; fields; rewrite <- ?app_assoc; cbn [app];
    rewrite ?length_app; cbn [length]; rewrite ?Nat.add_succ_r, ?Nat.add_0_r;
    reflexivity.
Qed.

Lemma connectToNode_fixed n s :
  truthy (IClient.baseUrl opts) = true ->
  connectToNode w opts (S n) s = handshake w opts s.
Proof.
  intros Hfixed. cbn [connectToNode]. unfold try_catch. rewrite Hfixed.
  destruct (handshake w opts s); reflexivity.
Qed.

Lemma connectToNode_dynamic n s :
  truthy (IClient.baseUrl opts) = false ->
  connectToNode w opts (S n) s =
  match handshake w opts s with
  | Thrown e s1 =>
      match networkResilience w e s1 with
      | Returned _ s2 => connectToNode w opts n s2
      | Thrown e' s2 => Thrown e' s2
      | Pending s2 => Pending s2
      end
  | o => o
  end.
Proof.
  intros Hdyn. cbn [connectToNode]. unfold try_catch. rewrite Hdyn.
  destruct (handshake w opts s); reflexivity.
Qed.

Lemma resolveBaseUrl_eq s :
  resolveBaseUrl w opts s =
  if truthy (IClient.baseUrl opts)
  then Returned tt (with_baseURL s (IClient.baseUrl opts))
  else match generateBaseUrl w s with
       | Returned u s' => Returned tt (with_baseURL s' (Some u))
       | Thrown e s' => Thrown e s'
       | Pending s' => Pending s'
       end.
Proof. unfold resolveBaseUrl. destruct (truthy _); reflexivity. Qed.

Lemma startup_eq n s :
  startup w opts n s =
  match resolveBaseUrl w opts s with
  | Returned _ s1 =>
      match baseURL s1 with
      | None => Thrown (TypeError_read "undefined" "startsWith") s1
      | Some u =>
          if startsWith u "http" then
            match connectToNode w opts n (connecting s1 u) with
            | Returned l s2 => Returned tt (connected s2 l)
            | Thrown e s2 => Thrown e s2
            | Pending s2 => Pending s2
            end
          else Returned tt s1
      end
  | Thrown e s1 => Thrown e s1
  | Pending s1 => Pending s1
  end.
Proof.
  unfold startup. unfold bind at 1.
  destruct (resolveBaseUrl w opts s) as [[] s1|e s1|s1]; try reflexivity.
  unfold bind at 1, get_state.
  destruct (baseURL s1) as [u|]; [|reflexivity].
  destruct (startsWith u "http"); [|reflexivity].
  run. fold (connecting s1 u).
  destruct (connectToNode w opts n (connecting s1 u)) as [l s2|e s2|s2]; reflexivity.
Qed.

Lemma onModuleInit_eq n s :
  onModuleInit w opts n s =
  match startup w opts n s with
  | Thrown e s' => Returned tt (logged s' e)
  | o => o
  end.
Proof.
  unfold onModuleInit, try_catch.
  destruct (startup w opts n s); reflexivity.
Qed.

Lemma profile_request_eq s :
  profile_request w s =
  Returned (axios_get w (length (trace s)) (baseURL s) "/auth/profile")
    (with_trace s (trace s ++ [HttpGet (baseURL s) "/auth/profile"])).
Proof. reflexivity. Qed.

Lemma healthCheck_resume_eq n i r s :
  state_of (healthCheck_resume w opts n i r s) =
  match r with
  | Resolved profile => with_trace s (trace s ++ [ConsoleLog profile])
  | Rejected _ =>
      state_of (connectToNode w opts n (with_trace s (trace s ++ [ClearInterval i])))
  end.
Proof.
  destruct r as [profile|e]; [reflexivity|].
  unfold healthCheck_resume. run.
  destruct (connectToNode w opts n _); reflexivity.
Qed.

End Equations.

(* ================================================================== *)
(** * The random index *)
(* ================================================================== *)

Section RandomIndex.

Import Binary64.

Lemma round_exact n : 0 <= n < 2 ^ prec -> round n = n.
Proof.
  intros [Hn Hlt]. unfold round.
  assert (Z.log2 n < prec).
  { destruct (Z.eq_dec n 0) as [->|]; [reflexivity|].
    apply Z.log2_lt_pow2; lia. }
  destruct (Z.leb_spec (Z.log2 n + 1 - prec) 0); [reflexivity | lia].
Qed.

(** Rounding moves a value by at most half a unit in the last place. *)
Lemma round_bounds n : 0 <= n -> 0 <= round n <= n + 2 ^ (Z.log2 n - prec).
Proof.
  intros Hn. unfold round.
  destruct (Z.leb_spec (Z.log2 n + 1 - prec) 0) as [Hs|Hs].
  - pose proof (Z.pow_nonneg 2 (Z.log2 n - prec)). lia.
  - cbv zeta. rewrite !Z.shiftl_mul_pow2, Z.shiftr_div_pow2 by lia.
    replace (Z.log2 n + 1 - prec - 1) with (Z.log2 n - prec) by lia.
    set (h := 2 ^ (Z.log2 n - prec)).
    assert (Hh : 0 < h) by (apply Z.pow_pos_nonneg; lia).
    assert (E : 2 ^ (Z.log2 n + 1 - prec) = 2 * h).
    { unfold h. rewrite <- Z.pow_succ_r by lia. f_equal. lia. }
    rewrite E.
    pose proof (Z.div_mod n (2 * h) ltac:(lia)) as D.
    pose proof (Z.mod_pos_bound n (2 * h) ltac:(lia)) as B.
    assert (0 <= n / (2 * h)) by (apply Z.div_pos; lia).
    set (q := n / (2 * h)) in *. set (r := n mod (2 * h)) in *.
    replace (n - q * (2 * h)) with r by lia.
    destruct (Z.ltb_spec (1 * h) r); cbn [orb].
    + nia.
    + destruct (Z.eqb_spec r (1 * h)); cbn [andb]; [destruct (Z.odd q)|]; nia.
Qed.

(** The rounded product of a number below one and [m] stays below [m]. *)
Lemma floor_mul_range draw m : 1 <= m -> 0 <= floor_mul draw m <= m - 1.
Proof.
  intros Hm. unfold floor_mul, mantissa.
  pose proof (Z.mod_pos_bound draw (2 ^ prec) ltac:(reflexivity)) as Hk.
  set (k := draw mod 2 ^ prec) in *.
  assert (P : 0 < 2 ^ prec) by reflexivity.
  destruct (Z.eq_dec k 0) as [->|Hk0]; [cbn; lia|].
  assert (Hp : 0 < k * m) by nia.
  rewrite Z.sgn_pos, Z.abs_eq, Z.mul_1_l by lia.
  pose proof (round_bounds (k * m) ltac:(lia)) as [Rlo Rhi].
  assert (Hh : 2 ^ (Z.log2 (k * m) - prec) < m).
  { destruct (Z.le_gt_cases prec (Z.log2 (k * m))) as [Hge|Hlt].
    - pose proof (Z.log2_spec (k * m) Hp) as [L _].
      replace (Z.log2 (k * m)) with ((Z.log2 (k * m) - prec) + prec) in L at 1 by lia.
      rewrite Z.pow_add_r in L by (unfold prec in *; lia).
      nia.
    - rewrite Z.pow_neg_r by lia. lia. }
  split.
  - apply Z.div_pos; lia.
  - assert (round (k * m) / 2 ^ prec < m); [|lia].
    apply Z.div_lt_upper_bound; nia.
Qed.

Lemma floor_mul_zero draw : floor_mul draw 0 = 0.
Proof. unfold floor_mul. now rewrite Z.mul_0_r. Qed.

Lemma floor_mul_neg1 draw : floor_mul draw (-1) = 0 \/ floor_mul draw (-1) = -1.
Proof.
  unfold floor_mul, mantissa.
  pose proof (Z.mod_pos_bound draw (2 ^ prec) ltac:(reflexivity)) as Hk.
  set (k := draw mod 2 ^ prec) in *.
  destruct (Z.eq_dec k 0) as [->|Hk0]; [now left|right].
  rewrite Z.sgn_neg by lia.
  replace (Z.abs (k * -1)) with k by lia.
  rewrite round_exact by lia.
  assert (E : -1 * k = -1 * 2 ^ prec + (2 ^ prec - k)) by lia.
  rewrite E, Z.div_add_l by (unfold prec; lia).
  rewrite Z.div_small; lia.
Qed.

End RandomIndex.

(** With one entry the draw is the entry. *)
Lemma randomNode_single draw : randomNode draw 1 = 0.
Proof. unfold randomNode. apply floor_mul_zero. Qed.

(** With two or more entries the draw stays below the last index. *)
Lemma randomNode_range draw len :
  (2 <= len)%nat -> 0 <= randomNode draw len < Z.of_nat len - 1.
Proof.
  intros Hlen. unfold randomNode.
  pose proof (floor_mul_range draw (Z.of_nat len - 1) ltac:(lia)). lia.
Qed.

(** On an empty array every draw reads [undefined]. *)
Lemma array_get_empty {A} draw : array_get (@nil A) (randomNode draw 0) = None.
Proof.
  unfold array_get, randomNode. cbn [length Z.of_nat Z.sub Z.add Z.opp Z.pos_sub].
  destruct (floor_mul_neg1 draw) as [-> | ->]; reflexivity.
Qed.

Lemma array_get_in_range {A} (xs : list A) i :
  0 <= i < Z.of_nat (length xs) -> exists x, array_get xs i = Some x.
Proof.
  intros [Hlo Hhi]. unfold array_get.
  destruct (Z.ltb_spec i 0); [lia|].
  destruct (nth_error xs (Z.to_nat i)) as [x|] eqn:E; [now exists x|].
  apply nth_error_None in E. lia.
Qed.

(* ================================================================== *)
(** * Node selection *)
(* ================================================================== *)

(** C1.  The index drawn by [generateBaseUrl] does not reach the last
    entry: on a directory of two or more entries the draw
    [Math.floor(Math.random() * (network.length - 1))] is an index strictly
    below [network.length - 1], whatever the random source yields, and the
    node recorded and returned is the one at that index. *)
Theorem generateBaseUrl_never_selects_last (w : World) (s : State)
    (network : list ISmartNetwork.INetworkEntity) :
  (2 <= length network)%nat ->
  getNodes w (length (trace s)) = Resolved network ->
  exists entity,
    0 <= randomNode (Math_random w (S (length (trace s)))) (length network)
      < Z.of_nat (length network) - 1 /\
    array_get network
      (randomNode (Math_random w (S (length (trace s)))) (length network))
      = Some entity /\
    generateBaseUrl w s =
      Returned (ISmartNetwork.url
                  (ISmartNetwork.operator (ISmartNetwork.membership entity)))
        (selected s entity).
Proof.
  intros Hlen Hdir.
  pose proof (randomNode_range (Math_random w (S (length (trace s)))) _ Hlen) as Hr.
  destruct (array_get_in_range network
              (randomNode (Math_random w (S (length (trace s)))) (length network)))
    as [entity He]; [lia|].
  exists entity. repeat split; try tauto.
  now rewrite generateBaseUrl_eq, Hdir, He.
Qed.

Lemma generateBaseUrl_never_selects_last_witness :
  randomNode (Math_random Examples.healthy 1) 2 < 1 /\
  generateBaseUrl Examples.healthy initial =
    Returned "http://node-a" (selected initial Examples.node_a).
Proof.
  destruct (generateBaseUrl_never_selects_last Examples.healthy initial
              [Examples.node_a; Examples.node_b])
    as (entity & Hrange & Hget & Heq).
  - cbn. lia.
  - reflexivity.
  - split; [exact (proj2 Hrange)|].
    rewrite Heq. vm_compute in Hget. injection Hget as <-. reflexivity.
Defined.

(** With two nodes of which the first refuses connections, the failover
    draws the first node again each time and the second, which would
    answer, is never contacted: the handshake is still pending after any
    number of attempts. *)
Lemma failover_never_reaches_second_node (n : nat) :
  forall s, baseURL s = Some "http://node-a" ->
  exists s', connectToNode Examples.half_down Examples.dynamic n s = Pending s' /\
             baseURL s' = Some "http://node-a".
Proof.
  induction n as [|n IH]; intros s Hs.
  - now exists s.
  - rewrite connectToNode_dynamic by reflexivity.
    rewrite handshake_eq. cbv zeta.
    replace (axios_get Examples.half_down (length (trace s)) (baseURL s)
               "/auth/web3/request") with (@Rejected jsval Examples.refused)
      by (rewrite Hs; reflexivity).
    rewrite networkResilience_eq.
    change (includes recoverable_codes (code Examples.refused)) with true. cbv iota.
    rewrite generateBaseUrl_eq.
    change (getNodes Examples.half_down _)
      with (Resolved [Examples.node_a; Examples.node_b]).
    cbv iota. cbn [length].
    match goal with
    | |- context [randomNode ?d 2] =>
        pose proof (randomNode_range d 2 ltac:(lia)) as Hrange;
        replace (randomNode d 2) with 0 by lia
    end.
    change (array_get [Examples.node_a; Examples.node_b] 0) with (Some Examples.node_a).
    cbv iota. apply IH. reflexivity.
Qed.

(** C2.  On an empty directory snapshot the selection throws (the failure
    that the specification calls EmptyDirectory) for every random draw, and
    nothing follows it but the log line: [onModuleInit] ends after logging
    the failure, and a failover that meets the empty directory rejects
    [connectToNode]; in both the trace ends with the directory query and the
    draw, so no challenge request is sent after the failure. *)
Theorem empty_directory_fails_without_handshake
    (w : World) (opts : IClient.IOptions) (s : State) :
  getNodes w (length (trace s)) = Resolved [] ->
  generateBaseUrl w s
    = Thrown EmptyDirectory (with_trace s (trace s ++ [GetNodes; MathRandom])) /\
  (truthy (IClient.baseUrl opts) = false ->
   forall n,
     onModuleInit w opts n s
       = Returned tt
           (with_trace s
              (trace s ++ [GetNodes; MathRandom;
                           LoggerError (failure_message s EmptyDirectory)]))) /\
  (truthy (IClient.baseUrl opts) = false ->
   forall n s0 e,
     handshake w opts s0 = Thrown e s ->
     includes recoverable_codes (code e) = true ->
     connectToNode w opts (S n) s0
       = Thrown EmptyDirectory (with_trace s (trace s ++ [GetNodes; MathRandom]))).
Proof.
  intros Hdir.
  assert (Hgen : generateBaseUrl w s
                 = Thrown EmptyDirectory (with_trace s (trace s ++ [GetNodes; MathRandom]))).
  { rewrite generateBaseUrl_eq, Hdir. cbn [length]. now rewrite array_get_empty. }
  split; [exact Hgen|]. split.
  - intros Hdyn n.
    rewrite onModuleInit_eq, startup_eq, resolveBaseUrl_eq, Hdyn, Hgen.
    unfold logged, failure_message, with_trace. fields.
    now rewrite <- app_assoc.
  - intros Hdyn n s0 e Hh Hrec.
    now rewrite connectToNode_dynamic, Hh, networkResilience_eq, Hrec, Hgen.
Qed.

Lemma empty_directory_fails_without_handshake_witness :
  generateBaseUrl Examples.deserted initial
    = Thrown EmptyDirectory (with_trace initial [GetNodes; MathRandom]) /\
  onModuleInit Examples.deserted Examples.dynamic 3 initial
    = Returned tt
        (with_trace initial
           [GetNodes; MathRandom;
            LoggerError "failed to connect to node: undefined: undefined"]).
Proof.
  destruct (empty_directory_fails_without_handshake
              Examples.deserted Examples.dynamic initial eq_refl)
    as (Hgen & Hinit & _).
  split; [exact Hgen | exact (Hinit eq_refl 3%nat)].
Defined.

(* ================================================================== *)
(** * Shape of the traces *)
(* ================================================================== *)

Lemma exchange_no_timer evs :
  Forall (fun e => is_exchange e = true) evs -> no_timer evs.
Proof. apply Forall_impl. intros [] H; try discriminate; reflexivity. Qed.

Lemma selection_no_timer evs :
  Forall (fun e => is_selection e = true) evs -> no_timer evs.
Proof. apply Forall_impl. intros [] H; try discriminate; reflexivity. Qed.

Lemma exchange_no_selection evs :
  Forall (fun e => is_exchange e = true) evs -> filter is_selection evs = [].
Proof.
  induction 1 as [|e evs He _ IH]; [reflexivity|].
  cbn. destruct e; try discriminate; exact IH.
Qed.

Lemma selection_no_http evs :
  Forall (fun e => is_selection e = true) evs ->
  filter is_http evs = [] /\ filter is_error_log evs = [].
Proof.
  induction 1 as [|e evs He _ [IH1 IH2]]; [split; reflexivity|].
  cbn. destruct e; try discriminate; split; assumption.
Qed.

Lemma no_timer_app a b : no_timer a -> no_timer b -> no_timer (a ++ b).
Proof. unfold no_timer. rewrite Forall_app. tauto. Qed.

Lemma no_timer_prefix a b : no_timer (a ++ b) -> no_timer a.
Proof. unfold no_timer. rewrite Forall_app. tauto. Qed.

Lemma one_start_prepend pre evs : no_timer pre -> one_start evs -> one_start (pre ++ evs).
Proof.
  intros Hpre [q Hq | q i post Hq Hpost].
  - apply one_start_none. now apply no_timer_app.
  - rewrite app_assoc. apply one_start_set; [now apply no_timer_app | exact Hpost].
Qed.

Lemma one_start_append evs post : one_start evs -> no_timer post -> one_start (evs ++ post).
Proof.
  intros [q Hq | q i p Hq Hp] Hpost.
  - apply one_start_none. now apply no_timer_app.
  - rewrite <- app_assoc. cbn [app].
    apply one_start_set; [exact Hq | now apply no_timer_app].
Qed.

Section Shapes.

Variable w : World.
Variable opts : IClient.IOptions.

(** A handshake attempt touches nothing but the trace, to which it adds
    requests and signatures, and the timer when it succeeds. *)
Lemma handshake_shape s :
  match handshake w opts s with
  | Returned _ s' =>
      exists pre,
        s' = with_trace s (trace s ++ pre ++ [SetInterval (length (trace s ++ pre))])
        /\ Forall (fun e => is_exchange e = true) pre
  | Thrown _ s' =>
      exists pre, s' = with_trace s (trace s ++ pre)
                  /\ Forall (fun e => is_exchange e = true) pre
  | Pending _ => False
  end.
Proof.
  rewrite handshake_eq. cbv zeta.
  destruct (axios_get w _ _ _) as [data|e].
  2:{ eexists; split; [reflexivity|]. repeat constructor. }
  destruct (payload_of data) as [payload|e].
  2:{ eexists; split; [reflexivity|]. repeat constructor. }
  destruct (PrivateKey_fromString w _) as [k|e].
  2:{ eexists; split; [reflexivity|]. repeat constructor. }
  destruct (axios_post w _ _ _ _) as [l|e].
  - exists [HttpGet (baseURL s) "/auth/web3/request"; Sign (signing_bytes payload);
            HttpPost (baseURL s) "/auth/web3/login"
              (envelope opts payload
                 (PrivateKey_sign w (S (length (trace s))) k (signing_bytes payload)))].
    split; [|repeat constructor].
    rewrite length_app. cbn [length app].
    rewrite !Nat.add_succ_r, Nat.add_0_r. reflexivity.
  - eexists; split; [reflexivity|]. repeat constructor.
Qed.

Lemma generateBaseUrl_selected s u s' :
  generateBaseUrl w s = Returned u s' ->
  exists entity,
    s' = selected s entity /\
    u = ISmartNetwork.url (ISmartNetwork.operator (ISmartNetwork.membership entity)).
Proof.
  rewrite generateBaseUrl_eq.
  destruct (getNodes w _) as [network|e]; [|discriminate].
  destruct (array_get network _) as [entity|]; [|discriminate].
  intros [= <- <-]. now exists entity.
Qed.

Lemma generateBaseUrl_shape s :
  match generateBaseUrl w s with
  | Returned _ s' | Thrown _ s' =>
      exists pre, _login s' = _login s /\ trace s' = trace s ++ pre
                  /\ Forall (fun e => is_selection e = true) pre
  | Pending _ => False
  end.
Proof.
  rewrite generateBaseUrl_eq.
  destruct (getNodes w _) as [network|e].
  - destruct (array_get network _); eexists; (split; [reflexivity|]);
      (split; [reflexivity|]); repeat constructor.
  - eexists; (split; [reflexivity|]); (split; [reflexivity|]); repeat constructor.
Qed.

Lemma networkResilience_shape error s :
  match networkResilience w error s with
  | Returned _ s' | Thrown _ s' =>
      exists pre, _login s' = _login s /\ trace s' = trace s ++ pre
                  /\ Forall (fun e => is_selection e = true) pre
  | Pending _ => False
  end.
Proof.
  rewrite networkResilience_eq.
  pose proof (generateBaseUrl_shape s) as Hg.
  destruct (includes _ _).
  - destruct (generateBaseUrl w s); exact Hg.
  - exists []. rewrite app_nil_r. repeat split. constructor.
Qed.

Lemma resolveBaseUrl_shape s :
  match resolveBaseUrl w opts s with
  | Returned _ s' | Thrown _ s' =>
      exists pre, _login s' = _login s /\ trace s' = trace s ++ pre
                  /\ Forall (fun e => is_selection e = true) pre
  | Pending _ => False
  end.
Proof.
  rewrite resolveBaseUrl_eq.
  pose proof (generateBaseUrl_shape s) as Hg.
  destruct (truthy _).
  - exists []. rewrite app_nil_r. repeat split. constructor.
  - destruct (generateBaseUrl w s); exact Hg.
Qed.

(** Whatever the number of failovers, [connectToNode] leaves [_login]
    alone and registers a timer exactly when it resolves. *)
Lemma connectToNode_shape n : forall s, settles_like s (connectToNode w opts n s).
Proof.
  induction n as [|n IH]; intros s.
  - exists []. rewrite app_nil_r. repeat split. constructor.
  - cbn [connectToNode]. unfold try_catch.
    pose proof (handshake_shape s) as Hh.
    destruct (handshake w opts s) as [l s1|e s1|s1]; [| |contradiction].
    + destruct Hh as (pre & -> & Hpre). exists pre, (length (trace s ++ pre)).
      repeat split. now apply exchange_no_timer.
    + destruct Hh as (pre & -> & Hpre). apply exchange_no_timer in Hpre.
      destruct (truthy (IClient.baseUrl opts)).
      * exists pre. repeat split. exact Hpre.
      * unfold bind.
        pose proof (networkResilience_shape e (with_trace s (trace s ++ pre))) as Hr.
        destruct (networkResilience w e _) as [[] s2|e2 s2|s2]; [| |contradiction];
          destruct Hr as (sel & Hl & Ht & Hsel); apply selection_no_timer in Hsel;
          cbn [trace with_trace _login] in Hl, Ht.
        -- specialize (IH s2).
           destruct (connectToNode w opts n s2) as [l s3|e3 s3|s3];
             cbn [settles_like] in *.
           ++ destruct IH as (pre' & i & Hl' & Ht' & Hpre').
              exists (pre ++ sel ++ pre'), i. rewrite Hl', Hl, Ht', Ht.
              repeat split; [now rewrite <- !app_assoc|].
              auto using no_timer_app.
           ++ destruct IH as (pre' & Hl' & Ht' & Hpre').
              exists (pre ++ sel ++ pre'). rewrite Hl', Hl, Ht', Ht.
              repeat split; [now rewrite <- !app_assoc|].
              auto using no_timer_app.
           ++ destruct IH as (pre' & Hl' & Ht' & Hpre').
              exists (pre ++ sel ++ pre'). rewrite Hl', Hl, Ht', Ht.
              repeat split; [now rewrite <- !app_assoc|].
              auto using no_timer_app.
        -- exists (pre ++ sel). rewrite Hl, Ht.
           repeat split; [now rewrite <- !app_assoc|].
           auto using no_timer_app.
Qed.

Lemma settles_one_start {A} s (o : Outcome A) :
  settles_like s o ->
  exists evs, _login (state_of o) = _login s /\ trace (state_of o) = trace s ++ evs
              /\ one_start evs.
Proof.
  destruct o as [a s'|e s'|s']; cbn [settles_like state_of].
  - intros (pre & i & Hl & Ht & Hpre). exists (pre ++ [SetInterval i]).
    repeat split; try assumption. apply one_start_set; [exact Hpre|constructor].
  - intros (pre & Hl & Ht & Hpre). exists pre. repeat split; try assumption.
    now apply one_start_none.
  - intros (pre & Hl & Ht & Hpre). exists pre. repeat split; try assumption.
    now apply one_start_none.
Qed.

(** The [try] block of [onModuleInit] registers at most one timer, and
    leaves [_login] alone unless it completes. *)
Lemma startup_shape n s :
  exists evs,
    trace (state_of (startup w opts n s)) = trace s ++ evs /\ one_start evs /\
    (forall e s', startup w opts n s = Thrown e s' -> _login s' = _login s) /\
    (forall s', startup w opts n s = Pending s' -> _login s' = _login s).
Proof.
  rewrite startup_eq.
  pose proof (resolveBaseUrl_shape s) as Hr.
  destruct (resolveBaseUrl w opts s) as [[] s1|e s1|s1]; [| |contradiction];
    destruct Hr as (sel & Hl & Ht & Hsel); apply selection_no_timer in Hsel.
  2:{ exists sel. repeat split; [exact Ht|now apply one_start_none| |discriminate].
      intros ? ? [= <- <-]. exact Hl. }
  destruct (baseURL s1) as [u|].
  2:{ exists sel. repeat split; [exact Ht|now apply one_start_none| |discriminate].
      intros ? ? [= <- <-]. exact Hl. }
  destruct (startsWith u "http").
  2:{ exists sel.
      repeat split; [exact Ht|now apply one_start_none|discriminate|discriminate]. }
  pose proof (connectToNode_shape n (connecting s1 u)) as Hc.
  destruct (connectToNode w opts n (connecting s1 u)) as [l s2|e s2|s2];
    cbn [settles_like state_of] in *.
  - destruct Hc as (pre & i & Hl2 & Ht2 & Hpre).
    exists (sel ++ [LoggerVerbose ("trying to connect with " ++ u ++ "...")] ++ pre
              ++ [SetInterval i]
              ++ [LoggerVerbose ("connected to node: " ++ template (baseURL s2))]).
    unfold connected, connecting in *. cbn [trace with_trace with_login] in *.
    rewrite Ht2, Ht. repeat split; [now rewrite <- !app_assoc| |discriminate|discriminate].
    apply one_start_prepend; [exact Hsel|].
    apply one_start_prepend; [repeat constructor|].
    apply one_start_set; [exact Hpre|repeat constructor].
  - destruct Hc as (pre & Hl2 & Ht2 & Hpre).
    exists (sel ++ [LoggerVerbose ("trying to connect with " ++ u ++ "...")] ++ pre).
    unfold connecting in *. cbn [trace with_trace _login] in *.
    rewrite Ht2, Ht. repeat split; [now rewrite <- !app_assoc| | |discriminate].
    + apply one_start_none. apply no_timer_app; [exact Hsel|].
      apply no_timer_app; [repeat constructor|exact Hpre].
    + intros ? ? [= <- <-]. congruence.
  - destruct Hc as (pre & Hl2 & Ht2 & Hpre).
    exists (sel ++ [LoggerVerbose ("trying to connect with " ++ u ++ "...")] ++ pre).
    unfold connecting in *. cbn [trace with_trace _login] in *.
    rewrite Ht2, Ht. repeat split; [now rewrite <- !app_assoc| |discriminate|].
    + apply one_start_none. apply no_timer_app; [exact Hsel|].
      apply no_timer_app; [repeat constructor|exact Hpre].
    + intros ? [= <-]. congruence.
Qed.

Lemma onModuleInit_one_start n s :
  exists evs,
    trace (state_of (onModuleInit w opts n s)) = trace s ++ evs /\ one_start evs.
Proof.
  rewrite onModuleInit_eq.
  destruct (startup_shape n s) as (evs & Ht & Hone & _).
  destruct (startup w opts n s) as [[] s'|e s'|s']; cbn [state_of] in *.
  - now exists evs.
  - exists (evs ++ [LoggerError (failure_message s' e)]). unfold logged.
    cbn [trace with_trace]. rewrite Ht, app_assoc. split; [reflexivity|].
    apply one_start_append; [exact Hone|repeat constructor].
  - now exists evs.
Qed.

End Shapes.

(* ================================================================== *)
(** * Failure policy *)
(* ================================================================== *)

(** C3.  With a configured [baseUrl] (truthy, as [connectToNode] tests it)
    every error thrown by a handshake attempt, whatever its code, rejects
    [connectToNode] with that same error, after the first attempt; no
    directory query and no random draw is added to the trace, and the
    recorded operator and the base URL of the transport stay as they were. *)
Theorem fixed_baseUrl_errors_are_fatal
    (w : World) (opts : IClient.IOptions) (n : nat) (s s' : State) (error : JsError) :
  truthy (IClient.baseUrl opts) = true ->
  handshake w opts s = Thrown error s' ->
  connectToNode w opts (S n) s = Thrown error s' /\
  filter is_selection (trace s') = filter is_selection (trace s) /\
  operator s' = operator s /\
  baseURL s' = baseURL s.
Proof.
  intros Hfixed Hh. rewrite connectToNode_fixed by exact Hfixed.
  split; [exact Hh|].
  pose proof (handshake_shape w opts s) as Hs. rewrite Hh in Hs.
  destruct Hs as (pre & -> & Hpre). cbn [trace with_trace].
  rewrite filter_app, (exchange_no_selection _ Hpre), app_nil_r.
  repeat split.
Qed.

Lemma fixed_baseUrl_errors_are_fatal_witness :
  connectToNode Examples.rejecting Examples.pinned 5 (with_baseURL initial (Some "http://node-a"))
    = Thrown Examples.unauthorized
        (with_trace (with_baseURL initial (Some "http://node-a"))
           [HttpGet (Some "http://node-a") "/auth/web3/request";
            Sign (signing_bytes {| IAuth.serverSignature := JString "S";
                                   IAuth.originalPayload := JString "P" |});
            HttpPost (Some "http://node-a") "/auth/web3/login"
              (envelope Examples.pinned
                 {| IAuth.serverSignature := JString "S";
                    IAuth.originalPayload := JString "P" |}
                 (signing_bytes {| IAuth.serverSignature := JString "S";
                                   IAuth.originalPayload := JString "P" |}))]).
Proof.
  refine (proj1 (fixed_baseUrl_errors_are_fatal Examples.rejecting Examples.pinned 4
                   (with_baseURL initial (Some "http://node-a")) _
                   Examples.unauthorized eq_refl _)).
  reflexivity.
Defined.

(** C4.  [networkResilience] takes the recoverable branch exactly for the
    codes ECONNREFUSED, ECONNABORTED and ECONNRESET.  In that branch a
    successful selection records the selected node and makes its URL the
    base URL of the transport: afterwards the base URL is that URL, the
    [operator] getter returns the selected node, [login] is untouched and
    the trace has grown by the directory query and the draw; and
    [connectToNode] goes on as a new [connectToNode] from that state (a new
    challenge request).  In the other branch the same error is thrown again
    from the same state, and [connectToNode] rejects with it. *)
Theorem networkResilience_policy
    (w : World) (opts : IClient.IOptions) (error : JsError) (s : State) :
  (includes recoverable_codes (code error) = true <->
   code error = Some "ECONNREFUSED" \/ code error = Some "ECONNABORTED"
   \/ code error = Some "ECONNRESET") /\
  (includes recoverable_codes (code error) = true ->
   forall u s', generateBaseUrl w s = Returned u s' ->
     networkResilience w error s = Returned tt (with_baseURL s' (Some u)) /\
     (exists entity,
        s' = selected s entity /\
        u = ISmartNetwork.url
              (ISmartNetwork.operator (ISmartNetwork.membership entity))) /\
     (truthy (IClient.baseUrl opts) = false ->
      forall n s0, handshake w opts s0 = Thrown error s ->
        connectToNode w opts (S n) s0
          = connectToNode w opts n (with_baseURL s' (Some u))) /\
     (exists sf entity,
        networkResilience w error s = Returned tt sf /\
        baseURL sf = Some u /\
        operator sf
          = Some (ISmartNetwork.operator (ISmartNetwork.membership entity)) /\
        u = ISmartNetwork.url
              (ISmartNetwork.operator (ISmartNetwork.membership entity)) /\
        login sf = login s /\
        trace sf = trace s ++ [GetNodes; MathRandom] /\
        (truthy (IClient.baseUrl opts) = false ->
         forall n s0, handshake w opts s0 = Thrown error s ->
           connectToNode w opts (S n) s0 = connectToNode w opts n sf))) /\
  (includes recoverable_codes (code error) = false ->
   networkResilience w error s = Thrown error s /\
   (forall n s0, handshake w opts s0 = Thrown error s ->
      connectToNode w opts (S n) s0 = Thrown error s)).
Proof.
  split; [|split].
  - unfold includes, recoverable_codes. destruct (code error) as [c|].
    + cbn [existsb]. rewrite orb_false_r, !orb_true_iff, !String.eqb_eq.
      split; (intros [H | [H | H]]; [left | right; left | right; right]); congruence.
    + split; [discriminate | intros [H | [H | H]]; discriminate].
  - intros Hrec u s' Hgen.
    assert (Hres : networkResilience w error s = Returned tt (with_baseURL s' (Some u)))
      by now rewrite networkResilience_eq, Hrec, Hgen.
    assert (Hretry : truthy (IClient.baseUrl opts) = false ->
                     forall n s0, handshake w opts s0 = Thrown error s ->
                       connectToNode w opts (S n) s0
                       = connectToNode w opts n (with_baseURL s' (Some u))).
    { intros Hdyn n s0 Hh.
      now rewrite connectToNode_dynamic, Hh, Hres. }
    destruct (generateBaseUrl_selected w s u s' Hgen) as (entity & Hs' & Hu).
    split; [exact Hres|]. split; [now exists entity|]. split; [exact Hretry|].
    exists (with_baseURL s' (Some u)), entity.
    split; [exact Hres|]. subst s'.
    repeat split; try assumption.
  - intros Hfatal.
    assert (Hres : networkResilience w error s = Thrown error s)
      by now rewrite networkResilience_eq, Hfatal.
    split; [exact Hres|].
    intros n s0 Hh. destruct (truthy (IClient.baseUrl opts)) eqn:Hmode.
    + now rewrite connectToNode_fixed.
    + now rewrite connectToNode_dynamic, Hh, Hres.
Qed.

Lemma networkResilience_policy_witness :
  networkResilience Examples.healthy Examples.refused initial
    = Returned tt
        {| _login := JUndefined;
           _operator := Some {| ISmartNetwork.accountId := "0.0.100";
                                ISmartNetwork.url := "http://node-a" |};
           baseURL := Some "http://node-a";
           trace := [GetNodes; MathRandom] |} /\
  networkResilience Examples.healthy Examples.unauthorized initial
    = Thrown Examples.unauthorized
        {| _login := JUndefined; _operator := None; baseURL := None; trace := [] |}.
Proof.
  destruct (networkResilience_policy Examples.healthy Examples.dynamic
              Examples.refused initial) as (_ & Hrec & _).
  destruct (networkResilience_policy Examples.healthy Examples.dynamic
              Examples.unauthorized initial) as (_ & _ & Hfatal).
  split.
  - exact (proj1 (Hrec eq_refl "http://node-a"%string
                    (selected initial Examples.node_a) eq_refl)).
  - exact (proj1 (Hfatal eq_refl)).
Defined.

(* ================================================================== *)
(** * The handshake *)
(* ================================================================== *)

(** C6.  When the challenge request, the property reads, the key and the
    login request all succeed, [connectToNode] performs, in this order and
    nothing else before it resolves: the GET of [/auth/web3/request] on the
    base URL; the signature, with the parsed key of the operator, of the
    UTF-8 bytes of [JSON.stringify] of
    [{serverSignature: data.signedData.signature, originalPayload:
    data.payload}]; the POST to [/auth/web3/login] of the request that
    holds this payload, that signature and the [accountId], [publicKey] and
    [url] of the operator; and the registration of the health check.  It
    resolves with the body of the login response and touches nothing but
    the trace.  The bytes signed are the text
    [{"serverSignature":s,"originalPayload":p}], [s] and [p] being the JSON
    texts of the two values. *)
Theorem handshake_steps_in_order
    (w : World) (opts : IClient.IOptions) (n : nat) (s : State)
    (data signedData signature original body : jsval) (k : PrivateKey)
    (bytes : list Byte.byte) (request : IAuth.ILogin) :
  axios_get w (length (trace s)) (baseURL s) "/auth/web3/request" = Resolved data ->
  getProp data "signedData" = Resolved signedData ->
  getProp signedData "signature" = Resolved signature ->
  getProp data "payload" = Resolved original ->
  PrivateKey_fromString w (IClient.privateKey (IClient.operator opts)) = Resolved k ->
  bytes = signing_bytes {| IAuth.serverSignature := signature;
                           IAuth.originalPayload := original |} ->
  request =
    {| IAuth.signedData :=
         {| IAuth.signedPayload := {| IAuth.serverSignature := signature;
                                      IAuth.originalPayload := original |};
            IAuth.userSignature := PrivateKey_sign w (S (length (trace s))) k bytes |};
       IAuth.operator :=
         {| IAuth.accountId := IClient.accountId (IClient.operator opts);
            IAuth.publicKey := IClient.publicKey (IClient.operator opts);
            IAuth.url := IClient.url (IClient.operator opts);
            IAuth.nft := {| IAuth.id := JNull; IAuth.serialNumber := JNull |} |} |} ->
  axios_post w (S (S (length (trace s)))) (baseURL s) "/auth/web3/login" request
    = Resolved body ->
  connectToNode w opts (S n) s =
    Returned body
      (with_trace s
         (trace s ++
          [HttpGet (baseURL s) "/auth/web3/request";
           Sign bytes;
           HttpPost (baseURL s) "/auth/web3/login" request;
           SetInterval (S (S (S (length (trace s)))))])) /\
  (exists sf,
     connectToNode w opts (S n) s = Returned body sf /\
     trace sf = trace s ++
                [HttpGet (baseURL s) "/auth/web3/request";
                 Sign bytes;
                 HttpPost (baseURL s) "/auth/web3/login" request;
                 SetInterval (S (S (S (length (trace s)))))] /\
     baseURL sf = baseURL s /\ login sf = login s /\ operator sf = operator s) /\
  (forall text_s text_p,
     SerializeJSONProperty signature = Some text_s ->
     SerializeJSONProperty original = Some text_p ->
     bytes = list_byte_of_string
               ("{" ++ String "034"%char ("serverSignature" ++ String "034"%char (":"
                    ++ text_s ++ "," ++ String "034"%char ("originalPayload"
                    ++ String "034"%char (":" ++ text_p ++ "}")))))%string).
Proof.
  intros Hget Hsd Hsig Hpay Hkey Hbytes Hreq Hpost.
  assert (Hrun : connectToNode w opts (S n) s =
                 Returned body
                   (with_trace s
                      (trace s ++
                       [HttpGet (baseURL s) "/auth/web3/request";
                        Sign bytes;
                        HttpPost (baseURL s) "/auth/web3/login" request;
                        SetInterval (S (S (S (length (trace s)))))]))).
  { cbn [connectToNode]. unfold try_catch.
    rewrite handshake_eq. cbv zeta. rewrite Hget.
    unfold payload_of. rewrite Hsd, Hsig, Hpay, Hkey.
    unfold envelope. rewrite <- Hbytes, <- Hreq, Hpost. reflexivity. }
  split; [exact Hrun|]. split.
  - eexists. split; [exact Hrun|]. repeat split.
  - intros text_s text_p HS HP. rewrite Hbytes.
    unfold signing_bytes, Buffer_from, JSON_stringify_object, IAuth.members.
    cbn [SerializeJSONProperty flat_map fst snd IAuth.serverSignature
         IAuth.originalPayload].
    rewrite HS, HP. cbn [app String.concat]. f_equal.
    unfold QuoteJSONString, dquote. cbn [quoteChars].
    change (quoteChars "serverSignature") with "serverSignature"%string.
    change (quoteChars "originalPayload") with "originalPayload"%string.
    rewrite !append_assoc. reflexivity.
Qed.

Lemma handshake_steps_in_order_witness :
  connectToNode Examples.healthy Examples.pinned 1
    {| _login := JUndefined; _operator := None;
       baseURL := Some "http://node-a"; trace := [] |}
  = Returned (JObject [("token", JString "T1")])
      {| _login := JUndefined; _operator := None;
         baseURL := Some "http://node-a";
         trace :=
           [HttpGet (Some "http://node-a") "/auth/web3/request";
            Sign
              [Byte.x7b; Byte.x22; Byte.x73; Byte.x65; Byte.x72; Byte.x76; Byte.x65;
               Byte.x72; Byte.x53; Byte.x69; Byte.x67; Byte.x6e; Byte.x61; Byte.x74;
               Byte.x75; Byte.x72; Byte.x65; Byte.x22; Byte.x3a; Byte.x22; Byte.x53;
               Byte.x22; Byte.x2c; Byte.x22; Byte.x6f; Byte.x72; Byte.x69; Byte.x67;
               Byte.x69; Byte.x6e; Byte.x61; Byte.x6c; Byte.x50; Byte.x61; Byte.x79;
               Byte.x6c; Byte.x6f; Byte.x61; Byte.x64; Byte.x22; Byte.x3a; Byte.x22;
               Byte.x50; Byte.x22; Byte.x7d];
            HttpPost (Some "http://node-a") "/auth/web3/login"
              {| IAuth.signedData :=
                   {| IAuth.signedPayload :=
                        {| IAuth.serverSignature := JString "S";
                           IAuth.originalPayload := JString "P" |};
                      IAuth.userSignature :=
                        [Byte.x7b; Byte.x22; Byte.x73; Byte.x65; Byte.x72; Byte.x76; Byte.x65;
                         Byte.x72; Byte.x53; Byte.x69; Byte.x67; Byte.x6e; Byte.x61; Byte.x74;
                         Byte.x75; Byte.x72; Byte.x65; Byte.x22; Byte.x3a; Byte.x22; Byte.x53;
                         Byte.x22; Byte.x2c; Byte.x22; Byte.x6f; Byte.x72; Byte.x69; Byte.x67;
                         Byte.x69; Byte.x6e; Byte.x61; Byte.x6c; Byte.x50; Byte.x61; Byte.x79;
                         Byte.x6c; Byte.x6f; Byte.x61; Byte.x64; Byte.x22; Byte.x3a; Byte.x22;
                         Byte.x50; Byte.x22; Byte.x7d] |};
                 IAuth.operator :=
                   {| IAuth.accountId := "0.0.7";
                      IAuth.publicKey := "302a300506032b6570032100";
                      IAuth.url := "http://operator";
                      IAuth.nft := {| IAuth.id := JNull;
                                      IAuth.serialNumber := JNull |} |} |};
            SetInterval 3] |}.
Proof.
  exact (proj1 (handshake_steps_in_order Examples.healthy Examples.pinned 0
           {| _login := JUndefined; _operator := None;
              baseURL := Some "http://node-a"; trace := [] |}
           Examples.challenge (JObject [("signature", JString "S")])
           (JString "S") (JString "P") (Examples.token "T1")
           (IClient.privateKey Examples.identity) _ _
           eq_refl eq_refl eq_refl eq_refl eq_refl eq_refl eq_refl eq_refl)).
Defined.

(* ================================================================== *)
(** * Signing *)
(* ================================================================== *)

(** C7.  [signNodeData] signs the UTF-8 bytes of [JSON.stringify(payload)]
    and nothing else enters them: two runs on the same payload, in any two
    states, with any two keys and signers, and options with the same
    operator identity, sign the same bytes.  The text is
    [{"serverSignature":s,"originalPayload":p}], [s] and [p] being the
    JSON texts of the two values, in this order.  The request returned
    holds the payload unchanged as [signedData.signedPayload], the answer
    of the signer on these bytes as [signedData.userSignature], and the
    [accountId], [publicKey] and [url] of the configured operator. *)
Theorem signNodeData_serialization_stable
    (w1 w2 : World) (opts1 opts2 : IClient.IOptions)
    (payload : IAuth.ISignedPayload) (s1 s2 : State) (k1 k2 : PrivateKey) :
  IClient.operator opts1 = IClient.operator opts2 ->
  PrivateKey_fromString w1 (IClient.privateKey (IClient.operator opts1)) = Resolved k1 ->
  PrivateKey_fromString w2 (IClient.privateKey (IClient.operator opts2)) = Resolved k2 ->
  exists bytes request1 request2 s1' s2',
    signNodeData w1 opts1 payload s1 = Returned request1 s1' /\
    signNodeData w2 opts2 payload s2 = Returned request2 s2' /\
    trace s1' = trace s1 ++ [Sign bytes] /\
    trace s2' = trace s2 ++ [Sign bytes] /\
    bytes = list_byte_of_string
              (JSON_stringify_object
                 [("serverSignature", IAuth.serverSignature payload);
                  ("originalPayload", IAuth.originalPayload payload)]) /\
    (forall text_s text_p,
       SerializeJSONProperty (IAuth.serverSignature payload) = Some text_s ->
       SerializeJSONProperty (IAuth.originalPayload payload) = Some text_p ->
       bytes = list_byte_of_string
                 ("{" ++ String "034"%char ("serverSignature" ++ String "034"%char (":"
                      ++ text_s ++ "," ++ String "034"%char ("originalPayload"
                      ++ String "034"%char (":" ++ text_p ++ "}")))))%string) /\
    IAuth.signedPayload (IAuth.signedData request1) = payload /\
    IAuth.signedPayload (IAuth.signedData request2) = payload /\
    IAuth.userSignature (IAuth.signedData request1)
      = PrivateKey_sign w1 (length (trace s1)) k1 bytes /\
    IAuth.userSignature (IAuth.signedData request2)
      = PrivateKey_sign w2 (length (trace s2)) k2 bytes /\
    IAuth.operator request1
      = {| IAuth.accountId := IClient.accountId (IClient.operator opts1);
           IAuth.publicKey := IClient.publicKey (IClient.operator opts1);
           IAuth.url := IClient.url (IClient.operator opts1);
           IAuth.nft := {| IAuth.id := JNull; IAuth.serialNumber := JNull |} |} /\
    IAuth.operator request2 = IAuth.operator request1 /\
    login s1' = login s1 /\ operator s1' = operator s1 /\ baseURL s1' = baseURL s1 /\
    login s2' = login s2 /\ operator s2' = operator s2 /\ baseURL s2' = baseURL s2.
Proof.
  intros Hid Hk1 Hk2.
  exists (signing_bytes payload),
         (envelope opts1 payload
            (PrivateKey_sign w1 (length (trace s1)) k1 (signing_bytes payload))),
         (envelope opts2 payload
            (PrivateKey_sign w2 (length (trace s2)) k2 (signing_bytes payload))),
         (with_trace s1 (trace s1 ++ [Sign (signing_bytes payload)])),
         (with_trace s2 (trace s2 ++ [Sign (signing_bytes payload)])).
  rewrite !signNodeData_eq, Hk1, Hk2.
  split; [reflexivity|]. split; [reflexivity|].
  split; [reflexivity|]. split; [reflexivity|].
  split; [reflexivity|]. split.
  - intros text_s text_p HS HP.
    unfold signing_bytes, Buffer_from, JSON_stringify_object, IAuth.members.
    cbn [SerializeJSONProperty flat_map fst snd]. rewrite HS, HP.
    cbn [app String.concat]. f_equal.
    unfold QuoteJSONString, dquote. cbn [quoteChars].
    change (quoteChars "serverSignature") with "serverSignature"%string.
    change (quoteChars "originalPayload") with "originalPayload"%string.
    rewrite !append_assoc. reflexivity.
  - repeat split. unfold envelope. cbn [IAuth.operator]. now rewrite Hid.
Qed.

Lemma signNodeData_serialization_stable_witness :
  signNodeData Examples.healthy Examples.dynamic Scenarios.nested_payload
    {| _login := JUndefined; _operator := None; baseURL := None; trace := [] |}
  = Returned
      {| IAuth.signedData :=
           {| IAuth.signedPayload := Scenarios.nested_payload;
              IAuth.userSignature :=
                [Byte.x7b; Byte.x22; Byte.x73; Byte.x65; Byte.x72; Byte.x76; Byte.x65;
                 Byte.x72; Byte.x53; Byte.x69; Byte.x67; Byte.x6e; Byte.x61; Byte.x74;
                 Byte.x75; Byte.x72; Byte.x65; Byte.x22; Byte.x3a; Byte.x22; Byte.x53;
                 Byte.x5c; Byte.x22; Byte.x5c; Byte.x5c; Byte.x5c; Byte.x6e; Byte.x22;
                 Byte.x2c; Byte.x22; Byte.x6f; Byte.x72; Byte.x69; Byte.x67; Byte.x69;
                 Byte.x6e; Byte.x61; Byte.x6c; Byte.x50; Byte.x61; Byte.x79; Byte.x6c;
                 Byte.x6f; Byte.x61; Byte.x64; Byte.x22; Byte.x3a; Byte.x7b; Byte.x22;
                 Byte.x6e; Byte.x6f; Byte.x64; Byte.x65; Byte.x22; Byte.x3a; Byte.x22;
                 Byte.x30; Byte.x2e; Byte.x30; Byte.x2e; Byte.x31; Byte.x30; Byte.x30;
                 Byte.x22; Byte.x2c; Byte.x22; Byte.x6e; Byte.x6f; Byte.x6e; Byte.x63;
                 Byte.x65; Byte.x22; Byte.x3a; Byte.x34; Byte.x32; Byte.x2c; Byte.x22;
                 Byte.x74; Byte.x61; Byte.x67; Byte.x73; Byte.x22; Byte.x3a; Byte.x5b;
                 Byte.x74; Byte.x72; Byte.x75; Byte.x65; Byte.x2c; Byte.x6e; Byte.x75;
                 Byte.x6c; Byte.x6c; Byte.x5d; Byte.x7d; Byte.x7d] |};
         IAuth.operator :=
           {| IAuth.accountId := "0.0.7";
              IAuth.publicKey := "302a300506032b6570032100";
              IAuth.url := "http://operator";
              IAuth.nft := {| IAuth.id := JNull; IAuth.serialNumber := JNull |} |} |}
      {| _login := JUndefined; _operator := None; baseURL := None;
         trace :=
           [Sign
              [Byte.x7b; Byte.x22; Byte.x73; Byte.x65; Byte.x72; Byte.x76; Byte.x65;
               Byte.x72; Byte.x53; Byte.x69; Byte.x67; Byte.x6e; Byte.x61; Byte.x74;
               Byte.x75; Byte.x72; Byte.x65; Byte.x22; Byte.x3a; Byte.x22; Byte.x53;
               Byte.x5c; Byte.x22; Byte.x5c; Byte.x5c; Byte.x5c; Byte.x6e; Byte.x22;
               Byte.x2c; Byte.x22; Byte.x6f; Byte.x72; Byte.x69; Byte.x67; Byte.x69;
               Byte.x6e; Byte.x61; Byte.x6c; Byte.x50; Byte.x61; Byte.x79; Byte.x6c;
               Byte.x6f; Byte.x61; Byte.x64; Byte.x22; Byte.x3a; Byte.x7b; Byte.x22;
               Byte.x6e; Byte.x6f; Byte.x64; Byte.x65; Byte.x22; Byte.x3a; Byte.x22;
               Byte.x30; Byte.x2e; Byte.x30; Byte.x2e; Byte.x31; Byte.x30; Byte.x30;
               Byte.x22; Byte.x2c; Byte.x22; Byte.x6e; Byte.x6f; Byte.x6e; Byte.x63;
               Byte.x65; Byte.x22; Byte.x3a; Byte.x34; Byte.x32; Byte.x2c; Byte.x22;
               Byte.x74; Byte.x61; Byte.x67; Byte.x73; Byte.x22; Byte.x3a; Byte.x5b;
               Byte.x74; Byte.x72; Byte.x75; Byte.x65; Byte.x2c; Byte.x6e; Byte.x75;
               Byte.x6c; Byte.x6c; Byte.x5d; Byte.x7d; Byte.x7d]] |} /\
  exists request2,
    IAuth.signedPayload (IAuth.signedData request2) = Scenarios.nested_payload /\
    signNodeData Examples.rejecting Examples.pinned Scenarios.nested_payload
      {| _login := JUndefined; _operator := None;
         baseURL := Some "http://node-b"; trace := [GetNodes; MathRandom] |}
    = Returned request2
        {| _login := JUndefined; _operator := None;
           baseURL := Some "http://node-b";
           trace :=
             [GetNodes; MathRandom;
              Sign
                [Byte.x7b; Byte.x22; Byte.x73; Byte.x65; Byte.x72; Byte.x76; Byte.x65;
                 Byte.x72; Byte.x53; Byte.x69; Byte.x67; Byte.x6e; Byte.x61; Byte.x74;
                 Byte.x75; Byte.x72; Byte.x65; Byte.x22; Byte.x3a; Byte.x22; Byte.x53;
                 Byte.x5c; Byte.x22; Byte.x5c; Byte.x5c; Byte.x5c; Byte.x6e; Byte.x22;
                 Byte.x2c; Byte.x22; Byte.x6f; Byte.x72; Byte.x69; Byte.x67; Byte.x69;
                 Byte.x6e; Byte.x61; Byte.x6c; Byte.x50; Byte.x61; Byte.x79; Byte.x6c;
                 Byte.x6f; Byte.x61; Byte.x64; Byte.x22; Byte.x3a; Byte.x7b; Byte.x22;
                 Byte.x6e; Byte.x6f; Byte.x64; Byte.x65; Byte.x22; Byte.x3a; Byte.x22;
                 Byte.x30; Byte.x2e; Byte.x30; Byte.x2e; Byte.x31; Byte.x30; Byte.x30;
                 Byte.x22; Byte.x2c; Byte.x22; Byte.x6e; Byte.x6f; Byte.x6e; Byte.x63;
                 Byte.x65; Byte.x22; Byte.x3a; Byte.x34; Byte.x32; Byte.x2c; Byte.x22;
                 Byte.x74; Byte.x61; Byte.x67; Byte.x73; Byte.x22; Byte.x3a; Byte.x5b;
                 Byte.x74; Byte.x72; Byte.x75; Byte.x65; Byte.x2c; Byte.x6e; Byte.x75;
                 Byte.x6c; Byte.x6c; Byte.x5d; Byte.x7d; Byte.x7d]] |}.
Proof.
  destruct (signNodeData_serialization_stable
              Examples.healthy Examples.rejecting Examples.dynamic Examples.pinned
              Scenarios.nested_payload
              {| _login := JUndefined; _operator := None; baseURL := None; trace := [] |}
              {| _login := JUndefined; _operator := None;
                 baseURL := Some "http://node-b"; trace := [GetNodes; MathRandom] |}
              (IClient.privateKey Examples.identity) (IClient.privateKey Examples.identity)
              eq_refl eq_refl eq_refl)
    as (bytes & request1 & request2 & s1' & s2' & H1 & H2 & Ht1 & Ht2 & Hb & _
        & Hp1 & Hp2 & Hu1 & _ & Ho1 & _ & Hl1 & Hop1 & Hb1 & Hl2 & Hop2 & Hb2).
  split.
  - rewrite H1. destruct request1 as [[payload signature] identity].
    destruct s1' as [l o b t]. unfold login, operator in Hl1, Hop1.
    cbn [IAuth.signedData IAuth.signedPayload IAuth.userSignature IAuth.operator
         _login _operator baseURL trace] in *.
    subst. reflexivity.
  - exists request2. split; [exact Hp2|]. rewrite H2.
    destruct s2' as [l o b t]. unfold login, operator in Hl2, Hop2.
    cbn [_login _operator baseURL trace] in *.
    subst. reflexivity.
Defined.

(* ================================================================== *)
(** * Startup *)
(* ================================================================== *)

(** C8.  [onModuleInit] never throws.  Every error thrown by its [try]
    block (by the selection, by the handshake, by a failover) is caught:
    [onModuleInit] then returns after one [logger.error] line made of the
    base URL of the transport at that moment and of the error's code, and
    [_login] keeps the value it had before (absent on a fresh service); it
    does so too when the handshake is still pending. *)
Theorem onModuleInit_never_throws
    (w : World) (opts : IClient.IOptions) (n : nat) (s : State) :
  (forall e s', onModuleInit w opts n s <> Thrown e s') /\
  (forall e s',
     startup w opts n s = Thrown e s' ->
     onModuleInit w opts n s
       = Returned tt
           (with_trace s'
              (trace s' ++
               [LoggerError ("failed to connect to node: " ++ template (baseURL s')
                               ++ ": " ++ template (code e))])) /\
     login s' = login s) /\
  (forall s', onModuleInit w opts n s = Pending s' -> login s' = login s).
Proof.
  rewrite onModuleInit_eq.
  destruct (startup_shape w opts n s) as (evs & _ & _ & Hthrown & Hpending).
  destruct (startup w opts n s) as [[] sf|e sf|sf];
    (split; [discriminate | split]); try discriminate.
  - intros e0 s' [= <- <-]. split; [reflexivity | exact (Hthrown e sf eq_refl)].
  - intros s' [= <-]. exact (Hpending sf eq_refl).
Qed.

Lemma onModuleInit_never_throws_witness :
  onModuleInit Examples.rejecting Examples.pinned 2 initial
    = Returned tt
        (with_trace
           (state_of (startup Examples.rejecting Examples.pinned 2 initial))
           (trace (state_of (startup Examples.rejecting Examples.pinned 2 initial)) ++
            [LoggerError "failed to connect to node: http://node-a: ERR_BAD_REQUEST"])) /\
  login (state_of (onModuleInit Examples.rejecting Examples.pinned 2 initial)) = JUndefined.
Proof.
  destruct (onModuleInit_never_throws Examples.rejecting Examples.pinned 2 initial)
    as (_ & Hcaught & _).
  destruct (Hcaught Examples.unauthorized
              (state_of (startup Examples.rejecting Examples.pinned 2 initial))
              eq_refl) as [Heq Hlogin].
  split; [exact Heq|]. rewrite Heq. exact Hlogin.
Defined.

(** C10.  When the base URL that [onModuleInit] resolves (the configured
    one, or the URL of the selected node) does not start with [http],
    [onModuleInit] returns at once: no request is sent to the transport,
    no error line is logged, and [_login] keeps its value. *)
Theorem onModuleInit_skips_non_http
    (w : World) (opts : IClient.IOptions) (n : nat) (s s1 : State) (u : string) :
  resolveBaseUrl w opts s = Returned tt s1 ->
  baseURL s1 = Some u ->
  startsWith u "http" = false ->
  onModuleInit w opts n s = Returned tt s1 /\
  filter is_http (trace s1) = filter is_http (trace s) /\
  filter is_error_log (trace s1) = filter is_error_log (trace s) /\
  login s1 = login s.
Proof.
  intros Hres Hurl Hprefix.
  split; [now rewrite onModuleInit_eq, startup_eq, Hres, Hurl, Hprefix|].
  pose proof (resolveBaseUrl_shape w opts s) as Hs. rewrite Hres in Hs.
  destruct Hs as (sel & Hl & Ht & Hsel).
  destruct (selection_no_http _ Hsel) as [Hhttp Hlog].
  rewrite Ht, !filter_app, Hhttp, Hlog, !app_nil_r. auto.
Qed.

Lemma onModuleInit_skips_non_http_witness :
  onModuleInit Examples.healthy Examples.offline 4 initial
    = Returned tt (with_baseURL initial (Some "disabled")).
Proof.
  exact (proj1 (onModuleInit_skips_non_http Examples.healthy Examples.offline 4
                  initial (with_baseURL initial (Some "disabled")) "disabled"
                  eq_refl eq_refl eq_refl)).
Defined.

(* ================================================================== *)
(** * The health check *)
(* ================================================================== *)

(** The callback never assigns [_login]: the credential of the inner
    [connectToNode] is dropped. *)
Lemma healthCheck_preserves_login
    (w : World) (opts : IClient.IOptions) (n i : nat) (s : State) :
  login (state_of (healthCheck w opts n i s)) = login s.
Proof.
  unfold healthCheck, bind. rewrite profile_request_eq, healthCheck_resume_eq.
  destruct (axios_get w _ _ _) as [profile|e]; [reflexivity|].
  destruct (settles_one_start _
              (connectToNode w opts n
                 (with_trace
                    (with_trace s (trace s ++ [HttpGet (baseURL s) "/auth/profile"]))
                    (trace (with_trace s (trace s ++ [HttpGet (baseURL s) "/auth/profile"]))
                       ++ [ClearInterval i])))
              (connectToNode_shape w opts n _)) as (evs & Hl & _).
  exact Hl.
Qed.

(** C5.  A service that logged in with the credential [T1] runs a health
    check that fails; the callback cancels the timer and runs the handshake
    again, which resolves with a new credential [T2]; the [login] getter
    still returns [T1]. *)
Theorem health_check_keeps_stale_login :
  let s1 := state_of (onModuleInit Examples.healthy Examples.pinned 1 initial) in
  let s2 := state_of (healthCheck Examples.healthy Examples.pinned 1 4 s1) in
  login s1 = Examples.token "T1" /\
  timers (trace s1) = [4%nat] /\
  connectToNode Examples.healthy Examples.pinned 1
    (with_trace s1 (trace s1 ++ [HttpGet (Some "http://node-a") "/auth/profile";
                                 ClearInterval 4]))
    = Returned (Examples.token "T2") s2 /\
  timers (trace s2) = [11%nat] /\
  login s2 = Examples.token "T1".
Proof. vm_compute. repeat split. Qed.

(* ================================================================== *)
(** * Timers *)
(* ================================================================== *)

Lemma timers_app a b : timers (a ++ b) = fold_left timer_step b (timers a).
Proof. apply fold_left_app. Qed.

Lemma fold_no_timer evs : no_timer evs -> forall acc, fold_left timer_step evs acc = acc.
Proof.
  induction 1 as [|e evs He _ IH]; intros acc; [reflexivity|].
  cbn [fold_left]. rewrite IH. destruct e; try discriminate; reflexivity.
Qed.

Lemma timers_no_timer tr evs : no_timer evs -> timers (tr ++ evs) = timers tr.
Proof. intros H. rewrite timers_app. now apply fold_no_timer. Qed.

Lemma bounded_here tr : bounded tr -> (length (timers tr) <= 1)%nat.
Proof. intros H. apply (H tr []). now rewrite app_nil_r. Qed.

Lemma bounded_nil : bounded [].
Proof. intros [|] q H; [cbn; lia | discriminate]. Qed.

Lemma bounded_quiet tr evs : bounded tr -> no_timer evs -> bounded (tr ++ evs).
Proof.
  intros Hb Hq p q E. apply app_eq_app in E.
  destruct E as (l & [[-> ->] | [-> ->]]).
  - apply (Hb p l eq_refl).
  - rewrite timers_no_timer by (eapply no_timer_prefix; eassumption).
    now apply bounded_here.
Qed.

Lemma bounded_snoc tr e :
  bounded tr -> (length (timers (tr ++ [e])) <= 1)%nat -> bounded (tr ++ [e]).
Proof.
  intros Hb He p q E. apply app_eq_app in E.
  destruct E as (l & [[-> E] | [-> E]]).
  - apply (Hb p l eq_refl).
  - destruct l as [|x l].
    + rewrite app_nil_r. now apply bounded_here.
    + injection E as <- E. symmetry in E. apply app_eq_nil in E. destruct E as [-> _].
      exact He.
Qed.

(** From a point where no timer is scheduled, events that register at most
    one timer keep the bound. *)
Lemma bounded_one_start tr evs :
  bounded tr -> timers tr = [] -> one_start evs -> bounded (tr ++ evs).
Proof.
  intros Hb Ht [pre Hpre | pre i post Hpre Hpost].
  - now apply bounded_quiet.
  - change (SetInterval i :: post) with ([SetInterval i] ++ post).
    rewrite !app_assoc. apply bounded_quiet; [|exact Hpost].
    apply bounded_snoc; [now apply bounded_quiet|].
    rewrite timers_app. cbn [fold_left timer_step].
    rewrite timers_no_timer, Ht by exact Hpre. cbn. lia.
Qed.

Lemma sole_timer i active :
  (length active <= 1)%nat -> existsb (Nat.eqb i) active = true -> active = [i].
Proof.
  destruct active as [|j [|k rest]]; cbn; intros Hlen Hin; try discriminate; [|lia].
  rewrite orb_false_r in Hin. apply Nat.eqb_eq in Hin. now subst.
Qed.

Section Serial.

Import Scheduler.

Variable w : World.
Variable opts : IClient.IOptions.
Variable n : nat.

Lemma boot_invariant :
  inflight (boot w opts n) = [] /\ bounded (trace (client (boot w opts n))).
Proof.
  split; [reflexivity|]. unfold boot. cbn [client].
  destruct (onModuleInit_one_start w opts n initial) as (evs & -> & Hone).
  apply bounded_one_start; [apply bounded_nil|reflexivity|exact Hone].
Qed.

(** One health check that runs alone keeps the bound, whether the timer
    was scheduled or not and whatever the transport answers. *)
Lemma tick_invariant i sys :
  inflight sys = [] -> bounded (trace (client sys)) ->
  inflight (run w opts n sys (tick i)) = [] /\
  bounded (trace (client (run w opts n sys (tick i)))) /\
  _login (client (run w opts n sys (tick i))) = _login (client sys).
Proof.
  intros Hin Hb. unfold run, tick. cbn [fold_left step].
  destruct (existsb (Nat.eqb i) (timers (trace (client sys)))) eqn:Hact.
  2:{ rewrite Hin. cbn [nth_error]. rewrite Hin. auto. }
  rewrite profile_request_eq. cbn [inflight client]. rewrite Hin.
  cbn [app nth_error remove_nth].
  split; [reflexivity|].
  rewrite healthCheck_resume_eq.
  set (s := client sys) in *.
  pose proof (sole_timer _ _ (bounded_here _ Hb) Hact) as Hsole.
  destruct (axios_get w _ _ _) as [profile|e]; cbn [trace with_trace _login client].
  - split; [|reflexivity]. apply bounded_quiet; [|repeat constructor].
    apply bounded_quiet; [exact Hb|repeat constructor].
  - assert (Ht1 : timers ((trace s ++ [HttpGet (baseURL s) "/auth/profile"])
                             ++ [ClearInterval i]) = []).
    { rewrite timers_app. cbn [fold_left timer_step].
      rewrite timers_no_timer by repeat constructor. rewrite Hsole. cbn.
      now rewrite Nat.eqb_refl. }
    assert (Hb1 : bounded ((trace s ++ [HttpGet (baseURL s) "/auth/profile"])
                             ++ [ClearInterval i])).
    { apply bounded_snoc.
      - apply bounded_quiet; [exact Hb|repeat constructor].
      - rewrite Ht1. cbn. lia. }
    destruct (settles_one_start _ _
                (connectToNode_shape w opts n
                   (with_trace
                      (with_trace s (trace s ++ [HttpGet (baseURL s) "/auth/profile"]))
                      ((trace s ++ [HttpGet (baseURL s) "/auth/profile"])
                         ++ [ClearInterval i]))))
      as (evs & Hl & Ht & Hone).
    cbn [trace with_trace _login] in Hl, Ht.
    rewrite Ht, Hl. split; [|reflexivity].
    now apply bounded_one_start.
Qed.

Lemma serial_invariant fired : forall sys,
  inflight sys = [] -> bounded (trace (client sys)) ->
  inflight (run w opts n sys (serial fired)) = [] /\
  bounded (trace (client (run w opts n sys (serial fired)))) /\
  _login (client (run w opts n sys (serial fired))) = _login (client sys).
Proof.
  induction fired as [|i fired IH]; intros sys Hin Hb.
  - cbn. auto.
  - unfold serial. cbn [flat_map]. unfold run. rewrite fold_left_app.
    destruct (tick_invariant i sys Hin Hb) as (Hin' & Hb' & Hl').
    destruct (IH _ Hin' Hb') as (Hin'' & Hb'' & Hl'').
    unfold run, serial in *. rewrite Hl'', Hl'. auto.
Qed.

End Serial.

(** C9, as the source has it.  As long as every health check runs to its
    end (its request settles, and the handshake it may start ends) before
    a timer fires again, at most one timer is scheduled at every point of
    the execution that starts with [onModuleInit] on a fresh service.
    [connectToNode] registers a timer exactly when it resolves, and a
    failed health check cancels its timer before it calls
    [connectToNode]. *)
Theorem serial_checks_keep_one_timer
    (w : World) (opts : IClient.IOptions) (n : nat) (fired : list nat) :
  bounded (trace (Scheduler.client
                    (Scheduler.run w opts n (Scheduler.boot w opts n)
                       (Scheduler.serial fired)))) /\
  Scheduler.inflight
    (Scheduler.run w opts n (Scheduler.boot w opts n) (Scheduler.serial fired)) = [] /\
  (forall s, settles_like s (connectToNode w opts n s)) /\
  (forall i e s,
     state_of (healthCheck_resume w opts n i (Rejected e) s)
     = state_of (connectToNode w opts n (with_trace s (trace s ++ [ClearInterval i])))).
Proof.
  destruct (boot_invariant w opts n) as [Hin Hb].
  destruct (serial_invariant w opts n fired _ Hin Hb) as (Hin' & Hb' & _).
  repeat split; try assumption.
  - apply connectToNode_shape.
  - intros i e s. apply (healthCheck_resume_eq w opts n i (Rejected e) s).
Qed.

(** C9, as the claim states it, fails when a timer fires again while the
    request of the previous health check has not settled: both callbacks
    cancel the same timer and each successful handshake registers a new
    one. *)
Lemma overlapping_checks_schedule_two_timers :
  timers (trace (Scheduler.client
                   (Scheduler.run Examples.healthy Examples.pinned 1
                      (Scheduler.boot Examples.healthy Examples.pinned 1)
                      [Scheduler.Fire 4; Scheduler.Fire 4;
                       Scheduler.Settle 0; Scheduler.Settle 0])))
    = [12%nat; 17%nat] /\
  ~ bounded (trace (Scheduler.client
                      (Scheduler.run Examples.healthy Examples.pinned 1
                         (Scheduler.boot Examples.healthy Examples.pinned 1)
                         [Scheduler.Fire 4; Scheduler.Fire 4;
                          Scheduler.Settle 0; Scheduler.Settle 0]))).
Proof.
  split; [vm_compute; reflexivity|].
  intros H. apply bounded_here in H. vm_compute in H. lia.
Qed.

(* ================================================================== *)
(** * Selection on a non-empty directory *)
(* ================================================================== *)

Lemma array_get_In {A} (xs : list A) i x : array_get xs i = Some x -> In x xs.
Proof.
  unfold array_get. destruct (i <? 0); [discriminate|]. apply nth_error_In.
Qed.

Lemma randomNode_in_bounds draw len :
  (1 <= len)%nat -> 0 <= randomNode draw len < Z.of_nat len.
Proof.
  intros Hlen. destruct (Nat.eq_dec len 1) as [->|Hne].
  - rewrite randomNode_single. lia.
  - pose proof (randomNode_range draw len ltac:(lia)). lia.
Qed.

Lemma generateBaseUrl_nonempty w s network :
  network <> [] ->
  getNodes w (length (trace s)) = Resolved network ->
  exists entity,
    In entity network /\
    generateBaseUrl w s =
      Returned (ISmartNetwork.url
                  (ISmartNetwork.operator (ISmartNetwork.membership entity)))
        (selected s entity).
Proof.
  intros Hne Hdir.
  assert (Hlen : (1 <= length network)%nat) by (destruct network; [congruence | cbn; lia]).
  destruct (array_get_in_range network
              (randomNode (Math_random w (S (length (trace s)))) (length network))
              (randomNode_in_bounds _ _ Hlen)) as [entity He].
  exists entity. split; [now apply array_get_In in He|].
  now rewrite generateBaseUrl_eq, Hdir, He.
Qed.

(** X1.  On a non-empty directory [generateBaseUrl] never fails and never
    reads outside of the list: for every random draw it returns the URL of
    an entry of the directory, and the [operator] getter then returns the
    operator of that entry. *)
Theorem generateBaseUrl_selects_member (w : World) (s : State)
    (network : list ISmartNetwork.INetworkEntity) :
  network <> [] ->
  getNodes w (length (trace s)) = Resolved network ->
  exists entity,
    In entity network /\
    generateBaseUrl w s =
      Returned (ISmartNetwork.url
                  (ISmartNetwork.operator (ISmartNetwork.membership entity)))
        (selected s entity) /\
    operator (selected s entity)
      = Some (ISmartNetwork.operator (ISmartNetwork.membership entity)).
Proof.
  intros Hne Hdir.
  destruct (generateBaseUrl_nonempty w s network Hne Hdir) as (entity & Hin & Heq).
  exists entity. repeat split; assumption.
Qed.

Lemma generateBaseUrl_selects_member_witness :
  generateBaseUrl Examples.rejecting initial
    = Returned "http://node-a" (selected initial Examples.node_a).
Proof.
  destruct (generateBaseUrl_selects_member Examples.rejecting initial [Examples.node_a])
    as (entity & Hin & Heq & _).
  - discriminate.
  - reflexivity.
  - destruct Hin as [<- | []]. exact Heq.
Defined.

Section Reachable.

Import Binary64.

(** Rounding does not go below a representable value that the argument
    has reached. *)
Lemma round_ge_multiple n a :
  0 <= a -> a * 2 ^ prec <= n -> n < 2 ^ (2 * prec) -> a * 2 ^ prec <= round n.
Proof.
  intros Ha Hle Hlt. unfold round.
  destruct (Z.leb_spec (Z.log2 n + 1 - prec) 0) as [Hs|Hs]; [exact Hle|].
  cbv zeta. set (s := Z.log2 n + 1 - prec) in *.
  assert (Hn : 0 < n).
  { destruct (Z.eq_dec n 0) as [->|]; [cbn in Hs; unfold prec in *; lia|].
    assert (0 <= n) by (pose proof (Z.pow_nonneg 2 prec); nia). lia. }
  assert (Hs53 : s <= prec).
  { assert (Z.log2 n < 2 * prec) by (apply Z.log2_lt_pow2; lia). lia. }
  rewrite (Z.shiftl_mul_pow2 _ s), Z.shiftr_div_pow2 by lia.
  assert (P : 0 < 2 ^ s) by (apply Z.pow_pos_nonneg; lia).
  assert (E : 2 ^ prec = 2 ^ (prec - s) * 2 ^ s).
  { rewrite <- Z.pow_add_r by lia. f_equal. lia. }
  assert (Hq : a * 2 ^ (prec - s) <= n / 2 ^ s).
  { apply Z.div_le_lower_bound; [exact P|]. rewrite E in Hle. nia. }
  assert (0 <= 2 ^ (prec - s)) by (apply Z.pow_nonneg; lia).
  rewrite E.
  destruct (_ || _); nia.
Qed.

End Reachable.

(** X2.  On a directory of [N >= 2] entries (an array holds fewer than
    [2^32]) every index from [0] to [N-2] is drawn by some value of
    [Math.random()]: with the bound on the draw, the indices that
    [generateBaseUrl] can select are exactly [0 .. N-2]. *)
Theorem randomNode_reaches_all_but_last (len : nat) (i : Z) :
  (2 <= len)%nat -> Z.of_nat len <= 2 ^ 32 ->
  0 <= i <= Z.of_nat len - 2 ->
  exists draw, 0 <= draw < 2 ^ 53 /\ randomNode draw len = i.
Proof.
  intros Hlen Hmax Hi.
  set (m := Z.of_nat len - 1).
  assert (Hm : 1 <= m < 2 ^ 32) by (unfold m; lia).
  exists ((i * 2 ^ 53 + m - 1) / m).
  assert (Hk : (i * 2 ^ 53 + m - 1) / m * m <= i * 2 ^ 53 + m - 1
               /\ i * 2 ^ 53 <= (i * 2 ^ 53 + m - 1) / m * m).
  { pose proof (Z.div_mod (i * 2 ^ 53 + m - 1) m ltac:(lia)) as D.
    pose proof (Z.mod_pos_bound (i * 2 ^ 53 + m - 1) m ltac:(lia)) as B. nia. }
  set (k := (i * 2 ^ 53 + m - 1) / m) in *.
  assert (Hk0 : 0 <= k) by (apply Z.div_pos; lia).
  assert (Hk53 : k < 2 ^ 53).
  { apply Z.div_lt_upper_bound; [lia|]. nia. }
  split; [lia|].
  unfold randomNode, Binary64.floor_mul, Binary64.mantissa. fold m.
  change (2 ^ Binary64.prec) with (2 ^ 53). rewrite (Z.mod_small k) by lia.
  destruct (Z.eq_dec i 0) as [->|Hi0].
  - assert (k = 0) as ->.
    { unfold k. apply Z.div_small. lia. }
    reflexivity.
  - assert (Hp : 0 < k * m) by nia.
    rewrite Z.sgn_pos, Z.abs_eq, Z.mul_1_l by lia.
    pose proof (round_ge_multiple (k * m) i ltac:(lia)) as Hlo.
    change (2 ^ Binary64.prec) with (2 ^ 53) in Hlo.
    change (2 ^ (2 * Binary64.prec)) with (2 ^ 106) in Hlo.
    specialize (Hlo ltac:(lia) ltac:(nia)).
    pose proof (round_bounds (k * m) ltac:(lia)) as [_ Hhi].
    assert (Hh : 2 ^ (Z.log2 (k * m) - Binary64.prec) < 2 ^ 32).
    { apply Z.pow_lt_mono_r; [lia| lia|].
      assert (Z.log2 (k * m) < 85); [|unfold Binary64.prec; lia].
      apply Z.log2_lt_pow2; [lia|]. nia. }
    symmetry. apply Z.div_unique with (r := Binary64.round (k * m) - i * 2 ^ 53).
    + left. nia.
    + lia.
Qed.

Lemma randomNode_reaches_all_but_last_witness :
  exists draw, 0 <= draw < 2 ^ 53 /\ randomNode draw 3 = 1.
Proof.
  apply (randomNode_reaches_all_but_last 3 1); [lia | vm_compute; discriminate | lia].
Defined.

(* ================================================================== *)
(** * Failures of the handshake *)
(* ================================================================== *)

Lemma getProp_code v k e :
  getProp v k = Rejected e -> name e = "TypeError" /\ code e = None.
Proof. destruct v; cbn; intros [= <-]; split; reflexivity. Qed.

(** The payload cannot be built exactly when [data.signedData] cannot be
    read or is [null] or [undefined]. *)
Lemma payload_of_fails data :
  (exists e, payload_of data = Rejected e) <->
  (forall signedData, getProp data "signedData" = Resolved signedData ->
                      nullish signedData = true).
Proof.
  unfold payload_of. split.
  - intros [e He] sd Hsd. rewrite Hsd in He.
    destruct sd; try reflexivity; cbn in He;
      destruct data; cbn in He; discriminate.
  - intros H. destruct (getProp data "signedData") as [sd|e] eqn:Hsd; [|now exists e].
    specialize (H sd eq_refl). destruct sd; try discriminate; cbn; eauto.
Qed.

(** X3.  A challenge response whose body is [null] or [undefined], or
    whose [signedData] is missing or [null], ends the handshake with a
    [TypeError] without a code right after the GET: nothing is signed, no
    login is posted, and [connectToNode] rejects with it in both modes
    (with dynamic selection too: the error is not recoverable, no other
    node is tried). *)
Theorem malformed_challenge_is_fatal
    (w : World) (opts : IClient.IOptions) (n : nat) (s : State) (data : jsval) :
  axios_get w (length (trace s)) (baseURL s) "/auth/web3/request" = Resolved data ->
  (forall signedData, getProp data "signedData" = Resolved signedData ->
                      nullish signedData = true) ->
  exists e,
    name e = "TypeError" /\ code e = None /\
    connectToNode w opts (S n) s
      = Thrown e (with_trace s (trace s ++ [HttpGet (baseURL s) "/auth/web3/request"])).
Proof.
  intros Hget Hbad. apply payload_of_fails in Hbad. destruct Hbad as [e He].
  exists e.
  assert (Hte : name e = "TypeError" /\ code e = None).
  { unfold payload_of in He.
    destruct (getProp data "signedData") as [sd|e1] eqn:H1.
    - destruct (getProp sd "signature") as [sg|e2] eqn:H2.
      + destruct (getProp data "payload") as [p|e3] eqn:H3; [discriminate|].
        injection He as <-. eapply getProp_code; eassumption.
      + injection He as <-. eapply getProp_code; eassumption.
    - injection He as <-. eapply getProp_code; eassumption. }
  destruct Hte as [Hname Hcode]. repeat split; try assumption.
  assert (Hh : handshake w opts s
               = Thrown e (with_trace s
                             (trace s ++ [HttpGet (baseURL s) "/auth/web3/request"])))
    by (rewrite handshake_eq; cbv zeta; now rewrite Hget, He).
  destruct (truthy (IClient.baseUrl opts)) eqn:Hmode.
  - now rewrite connectToNode_fixed.
  - rewrite connectToNode_dynamic, Hh, networkResilience_eq by assumption.
    unfold includes. now rewrite Hcode.
Qed.

Lemma malformed_challenge_is_fatal_witness :
  exists e,
    name e = "TypeError" /\ code e = None /\
    connectToNode Scenarios.garbled Examples.dynamic 3 initial
      = Thrown e (with_trace initial [HttpGet None "/auth/web3/request"]).
Proof.
  apply (malformed_challenge_is_fatal Scenarios.garbled Examples.dynamic 2 initial
           (JObject [("payload", JString "P")]) eq_refl).
  intros signedData [= <-]. reflexivity.
Defined.

(** X6.  With dynamic selection [connectToNode] rejects for one of two
    reasons only: a handshake attempt threw an error whose code is not
    recoverable, or a handshake attempt threw a recoverable error and the
    selection that followed threw, in which case the error of the
    selection is the one reported and the transport error is dropped. *)
Theorem dynamic_rejection_causes
    (w : World) (opts : IClient.IOptions) (n : nat) :
  truthy (IClient.baseUrl opts) = false ->
  forall s e s',
  connectToNode w opts n s = Thrown e s' ->
  (exists s0, handshake w opts s0 = Thrown e s' /\
              includes recoverable_codes (code e) = false) \/
  (exists s0 e0 s1, handshake w opts s0 = Thrown e0 s1 /\
                    includes recoverable_codes (code e0) = true /\
                    generateBaseUrl w s1 = Thrown e s').
Proof.
  intros Hdyn. induction n as [|n IH]; intros s e s' H; [discriminate|].
  rewrite connectToNode_dynamic in H by exact Hdyn.
  pose proof (handshake_shape w opts s) as Hs.
  destruct (handshake w opts s) as [l s1|e1 s1|s1] eqn:Hh; [discriminate| |contradiction].
  rewrite networkResilience_eq in H.
  destruct (includes recoverable_codes (code e1)) eqn:Hrec.
  - destruct (generateBaseUrl w s1) as [u s2|e2 s2|s2] eqn:Hg.
    + now apply IH in H.
    + injection H as <- <-. right. now exists s, e1, s1.
    + discriminate.
  - injection H as <- <-. left. now exists s.
Qed.

Lemma dynamic_rejection_causes_witness :
  (exists s0,
     handshake Examples.deserted Examples.dynamic s0
       = Thrown EmptyDirectory
           (with_trace initial [HttpGet None "/auth/web3/request"; GetNodes; MathRandom]) /\
     includes recoverable_codes (code EmptyDirectory) = false) \/
  (exists s0 e0 s1,
     handshake Examples.deserted Examples.dynamic s0 = Thrown e0 s1 /\
     includes recoverable_codes (code e0) = true /\
     generateBaseUrl Examples.deserted s1
       = Thrown EmptyDirectory
           (with_trace initial [HttpGet None "/auth/web3/request"; GetNodes; MathRandom])).
Proof.
  exact (dynamic_rejection_causes Examples.deserted Examples.dynamic 3 eq_refl
           initial EmptyDirectory
           (with_trace initial [HttpGet None "/auth/web3/request"; GetNodes; MathRandom])
           eq_refl).
Defined.

(* ================================================================== *)
(** * Failover *)
(* ================================================================== *)

Import Scheduler.

Lemma count_app f a b : count f (a ++ b) = (count f a + count f b)%nat.
Proof. unfold count. now rewrite filter_app, length_app. Qed.

(** What one handshake attempt adds. *)
Lemma handshake_events w opts s :
  exists evs,
    state_of (handshake w opts s) = with_trace s (trace s ++ evs) /\
    count is_challenge evs = 1%nat /\ count is_directory_query evs = 0%nat /\
    (forall s', handshake w opts s <> Pending s').
Proof.
  rewrite handshake_eq. cbv zeta.
  destruct (axios_get w _ _ _) as [data|e];
    [destruct (payload_of data) as [payload|e];
     [destruct (PrivateKey_fromString w _) as [k|e];
      [destruct (axios_post w _ _ _ _) as [l|e]|]|]|];
    eexists; (split; [reflexivity|]); repeat split; discriminate.
Qed.

(** What one selection adds. *)
Lemma generateBaseUrl_events w s :
  exists evs,
    trace (state_of (generateBaseUrl w s)) = trace s ++ evs /\
    count is_challenge evs = 0%nat /\ count is_directory_query evs = 1%nat.
Proof.
  rewrite generateBaseUrl_eq.
  destruct (getNodes w _) as [network|e];
    [destruct (array_get network _)|]; eexists; (split; [reflexivity|]); split; reflexivity.
Qed.
Lemma connectToNode_balance w opts n : forall s,
  exists evs,
    trace (state_of (connectToNode w opts n s)) = trace s ++ evs /\
    balance (connectToNode w opts n s) evs /\
    (truthy (IClient.baseUrl opts) = true -> count is_directory_query evs = 0%nat).
Proof.
  induction n as [|n IH]; intros s.
  - exists []. cbn. rewrite app_nil_r. auto.
  - destruct (handshake_events w opts s) as (hs & Hst & Hc & Hq & Hnp).
    destruct (truthy (IClient.baseUrl opts)) eqn:Hmode.
    + rewrite connectToNode_fixed by exact Hmode. exists hs.
      rewrite Hst. split; [reflexivity|]. split; [|auto].
      destruct (handshake w opts s) as [l s1|e s1|s1];
        [cbn [balance]; now rewrite Hc, Hq
        |cbn [balance]; left; now rewrite Hc, Hq
        |now elim (Hnp s1)].
    + rewrite connectToNode_dynamic by exact Hmode.
      destruct (handshake w opts s) as [l s1|e s1|s1] eqn:Hh; cbn [state_of] in Hst.
      * exists hs. rewrite Hst. cbn [state_of balance]. rewrite Hc, Hq.
        repeat split; try discriminate.
      * rewrite networkResilience_eq.
        destruct (includes recoverable_codes (code e)).
        -- destruct (generateBaseUrl_events w s1) as (gs & Hgt & Hgc & Hgq).
           destruct (generateBaseUrl w s1) as [u s2|e2 s2|s2] eqn:Hg; cbn [state_of] in Hgt.
           ++ destruct (IH (with_baseURL s2 (Some u))) as (evs & Ht & Hb & _).
              exists (hs ++ gs ++ evs). cbn [trace with_baseURL] in Ht.
              rewrite Ht, Hgt, Hst. cbn [trace with_trace].
              split; [now rewrite <- !app_assoc|]. split; [|discriminate].
              destruct (connectToNode w opts n (with_baseURL s2 (Some u)));
                cbn [balance] in *; rewrite !count_app, Hc, Hq, Hgc, Hgq; lia.
           ++ exists (hs ++ gs). cbn [state_of balance]. rewrite Hgt, Hst. cbn [trace with_trace].
              split; [now rewrite <- !app_assoc|]. split; [|discriminate].
              right. rewrite !count_app, Hc, Hq, Hgc, Hgq. lia.
           ++ pose proof (generateBaseUrl_shape w s1) as Hsh. rewrite Hg in Hsh.
              contradiction.
        -- exists hs. cbn [state_of balance]. rewrite Hst. cbn [trace with_trace].
           split; [reflexivity|]. split; [|discriminate]. left. now rewrite Hc, Hq.
      * now elim (Hnp s1).
Qed.

(** X10.  When [connectToNode] resolves, the challenge requests it sent
    are one more than the directory queries it made: every failover
    queries the directory once and is followed by exactly one new
    handshake attempt; with a configured [baseUrl] there is exactly one
    challenge request. *)
Theorem retries_follow_selections
    (w : World) (opts : IClient.IOptions) (n : nat) (s s' : State) (l : jsval) :
  connectToNode w opts n s = Returned l s' ->
  exists evs,
    trace s' = trace s ++ evs /\
    count is_challenge evs = S (count is_directory_query evs) /\
    (truthy (IClient.baseUrl opts) = true -> count is_challenge evs = 1%nat).
Proof.
  intros H. destruct (connectToNode_balance w opts n s) as (evs & Ht & Hb & Hfixed).
  rewrite H in Ht, Hb. exists evs. cbn [state_of balance] in *.
  repeat split; try assumption. intros Hmode. rewrite Hb, (Hfixed Hmode). reflexivity.
Qed.

Lemma retries_follow_selections_witness :
  exists evs,
    trace (state_of (connectToNode Scenarios.flaky Examples.dynamic 2 initial))
      = trace initial ++ evs /\
    count is_challenge evs = S (count is_directory_query evs).
Proof.
  destruct (retries_follow_selections Scenarios.flaky Examples.dynamic 2 initial
              (state_of (connectToNode Scenarios.flaky Examples.dynamic 2 initial))
              (Examples.token "T1"))
    as (evs & Ht & Hc & _).
  - vm_compute. reflexivity.
  - exists evs. split; assumption.
Defined.

(** X7.  The failover has no cap on retries: when every challenge request
    fails with a recoverable code and the directory always lists some
    node, [connectToNode] has not settled after any number of attempts, and
    each attempt sent one more challenge request. *)
Theorem failover_has_no_retry_cap (w : World) (opts : IClient.IOptions) :
  truthy (IClient.baseUrl opts) = false ->
  (forall t base, exists e,
      axios_get w t base "/auth/web3/request" = Rejected e /\
      includes recoverable_codes (code e) = true) ->
  (forall t, exists network, getNodes w t = Resolved network /\ network <> []) ->
  forall n s, exists s',
    connectToNode w opts n s = Pending s' /\
    count is_challenge (trace s') = (count is_challenge (trace s) + n)%nat.
Proof.
  intros Hdyn Hget Hdir. induction n as [|n IH]; intros s.
  - exists s. split; [reflexivity | lia].
  - rewrite connectToNode_dynamic, handshake_eq by exact Hdyn. cbv zeta.
    destruct (Hget (length (trace s)) (baseURL s)) as (e & -> & Hrec).
    rewrite networkResilience_eq, Hrec.
    destruct (Hdir (length (trace (with_trace s
                (trace s ++ [HttpGet (baseURL s) "/auth/web3/request"])))))
      as (network & Hn & Hne).
    destruct (generateBaseUrl_nonempty w _ network Hne Hn) as (entity & _ & ->).
    destruct (IH (with_baseURL
                    (selected (with_trace s
                       (trace s ++ [HttpGet (baseURL s) "/auth/web3/request"])) entity)
                    (Some (ISmartNetwork.url
                             (ISmartNetwork.operator (ISmartNetwork.membership entity))))))
      as (s' & Hp & Hc).
    exists s'. split; [exact Hp|]. rewrite Hc.
    unfold selected. cbn [trace with_trace with_operator with_baseURL].
    rewrite !count_app. cbn. lia.
Qed.

Lemma failover_has_no_retry_cap_witness :
  exists s',
    connectToNode Scenarios.unreachable Examples.dynamic 5 initial = Pending s' /\
    count is_challenge (trace s') = (count is_challenge (trace initial) + 5)%nat.
Proof.
  apply (failover_has_no_retry_cap Scenarios.unreachable Examples.dynamic eq_refl).
  - intros t base. exists Examples.refused. split; reflexivity.
  - intros t. exists [Examples.node_a; Examples.node_b]. split; [reflexivity|discriminate].
Defined.

(* ================================================================== *)
(** * The operator and the base URL *)
(* ================================================================== *)

Lemma coherent_with_trace s tr : coherent s -> coherent (with_trace s tr).
Proof. intros (o & Ho & Hu). now exists o. Qed.

Lemma coherent_with_login s l : coherent s -> coherent (with_login s l).
Proof. intros (o & Ho & Hu). now exists o. Qed.

Lemma coherent_selected s entity :
  coherent (with_baseURL (selected s entity)
              (Some (ISmartNetwork.url
                       (ISmartNetwork.operator (ISmartNetwork.membership entity))))).
Proof. eexists. split; reflexivity. Qed.

Lemma generateBaseUrl_thrown_fields w s e s' :
  generateBaseUrl w s = Thrown e s' ->
  _operator s' = _operator s /\ baseURL s' = baseURL s.
Proof.
  rewrite generateBaseUrl_eq.
  destruct (getNodes w _) as [network|e0]; [destruct (array_get network _)|];
    intros [= <- <-] || discriminate; split; reflexivity.
Qed.

Lemma connectToNode_coherent w opts n :
  truthy (IClient.baseUrl opts) = false ->
  forall s, coherent s -> coherent (state_of (connectToNode w opts n s)).
Proof.
  intros Hdyn. induction n as [|n IH]; intros s Hs; [exact Hs|].
  rewrite connectToNode_dynamic by exact Hdyn.
  pose proof (handshake_shape w opts s) as Hh.
  destruct (handshake w opts s) as [l s1|e s1|s1]; [| |contradiction].
  - destruct Hh as (pre & -> & _). now apply coherent_with_trace.
  - destruct Hh as (pre & -> & _).
    rewrite networkResilience_eq. destruct (includes _ _).
    + destruct (generateBaseUrl w _) as [u s2|e2 s2|s2] eqn:Hg.
      * apply IH. apply generateBaseUrl_selected in Hg.
        destruct Hg as (entity & -> & ->). apply coherent_selected.
      * cbn [state_of]. apply generateBaseUrl_thrown_fields in Hg.
        destruct Hg as [Ho Hu]. destruct Hs as (o & Hso & Hsu).
        exists o. cbn [_operator baseURL with_trace] in *. split; congruence.
      * pose proof (generateBaseUrl_shape w (with_trace s (trace s ++ pre))) as Hsh.
        rewrite Hg in Hsh. contradiction.
    + now apply coherent_with_trace.
Qed.


Lemma step_coherent w opts n sys st :
  truthy (IClient.baseUrl opts) = false ->
  coherent (client sys) -> coherent (client (step w opts n sys st)).
Proof.
  intros Hdyn Hc. destruct st as [i|k]; cbn [step].
  - destruct (existsb _ _); [|exact Hc]. rewrite profile_request_eq. cbn [client].
    now apply coherent_with_trace.
  - destruct (nth_error (inflight sys) k) as [[i r]|]; [|exact Hc]. cbn [client].
    rewrite healthCheck_resume_eq. destruct r as [p|e].
    + now apply coherent_with_trace.
    + apply connectToNode_coherent; [exact Hdyn|]. now apply coherent_with_trace.
Qed.

Lemma run_coherent w opts n steps : forall sys,
  truthy (IClient.baseUrl opts) = false ->
  coherent (client sys) -> coherent (client (run w opts n sys steps)).
Proof.
  induction steps as [|st steps IH]; intros sys Hdyn Hc; [exact Hc|].
  cbn [run fold_left]. apply IH; [exact Hdyn|]. now apply step_coherent.
Qed.

(** X4.  With dynamic selection, once the first selection of
    [onModuleInit] has succeeded, at every later point (after the startup
    handshake, its failovers, and any schedule of health checks and
    re-authentications) the [operator] getter returns a node and the base
    URL of the transport is the URL of that node. *)
Theorem dynamic_operator_matches_baseURL
    (w : World) (opts : IClient.IOptions) (n : nat) (s1 : State) (steps : list Step) :
  truthy (IClient.baseUrl opts) = false ->
  resolveBaseUrl w opts initial = Returned tt s1 ->
  exists o,
    operator (client (run w opts n (boot w opts n) steps)) = Some o /\
    baseURL (client (run w opts n (boot w opts n) steps)) = Some (ISmartNetwork.url o).
Proof.
  intros Hdyn Hres.
  apply (run_coherent w opts n steps (boot w opts n) Hdyn).
  unfold boot. cbn [client]. rewrite onModuleInit_eq, startup_eq, Hres.
  assert (Hs1 : coherent s1).
  { rewrite resolveBaseUrl_eq, Hdyn in Hres.
    destruct (generateBaseUrl w initial) as [u s2|e s2|s2] eqn:Hg; try discriminate.
    injection Hres as <-. apply generateBaseUrl_selected in Hg.
    destruct Hg as (entity & -> & ->). apply coherent_selected. }
  destruct (baseURL s1) as [u|] eqn:Hu.
  2:{ cbn [state_of]. now apply coherent_with_trace. }
  destruct (startsWith u "http"); [|exact Hs1].
  pose proof (connectToNode_coherent w opts n Hdyn (connecting s1 u)
                (coherent_with_trace _ _ Hs1)) as Hc.
  destruct (connectToNode w opts n (connecting s1 u)) as [l s2|e s2|s2];
    cbn [state_of] in *.
  - unfold connected. now apply coherent_with_trace, coherent_with_login.
  - now apply coherent_with_trace.
  - exact Hc.
Qed.

Lemma dynamic_operator_matches_baseURL_witness :
  exists o,
    operator (Scheduler.client
                (Scheduler.run Examples.healthy Examples.dynamic 1
                   (Scheduler.boot Examples.healthy Examples.dynamic 1)
                   [Scheduler.Fire 6; Scheduler.Settle 0])) = Some o /\
    baseURL (Scheduler.client
               (Scheduler.run Examples.healthy Examples.dynamic 1
                  (Scheduler.boot Examples.healthy Examples.dynamic 1)
                  [Scheduler.Fire 6; Scheduler.Settle 0]))
      = Some (ISmartNetwork.url o).
Proof.
  exact (dynamic_operator_matches_baseURL Examples.healthy Examples.dynamic 1
           (with_baseURL (selected initial Examples.node_a) (Some "http://node-a"))
           [Scheduler.Fire 6; Scheduler.Settle 0] eq_refl eq_refl).
Defined.

Lemma pinned_at_events opts s evs :
  pinned_at opts s -> filter is_selection evs = [] ->
  pinned_at opts (with_trace s (trace s ++ evs)).
Proof.
  intros (Ho & Hu & Hs) He. repeat split; try assumption.
  cbn [trace with_trace]. now rewrite filter_app, Hs, He.
Qed.

Lemma connectToNode_pinned w opts n s :
  truthy (IClient.baseUrl opts) = true ->
  pinned_at opts s -> pinned_at opts (state_of (connectToNode w opts n s)).
Proof.
  intros Hfixed Hp. destruct n as [|n]; [exact Hp|].
  rewrite connectToNode_fixed by exact Hfixed.
  pose proof (handshake_shape w opts s) as Hh.
  destruct (handshake w opts s) as [l s1|e s1|s1]; [| |contradiction];
    destruct Hh as (pre & -> & Hpre); cbn [state_of].
  - apply pinned_at_events; [exact Hp|].
    now rewrite filter_app, (exchange_no_selection _ Hpre).
  - apply pinned_at_events; [exact Hp|]. now apply exchange_no_selection.
Qed.

Lemma step_pinned w opts n sys st :
  truthy (IClient.baseUrl opts) = true ->
  pinned_at opts (client sys) -> pinned_at opts (client (step w opts n sys st)).
Proof.
  intros Hfixed Hp. destruct st as [i|k]; cbn [step].
  - destruct (existsb _ _); [|exact Hp]. rewrite profile_request_eq. cbn [client].
    now apply pinned_at_events.
  - destruct (nth_error (inflight sys) k) as [[i r]|]; [|exact Hp]. cbn [client].
    rewrite healthCheck_resume_eq. destruct r as [p|e].
    + now apply pinned_at_events.
    + apply connectToNode_pinned; [exact Hfixed|]. now apply pinned_at_events.
Qed.

(** X5.  With a configured [baseUrl] nothing is ever selected: at every
    point, under any schedule of health checks, the [operator] getter
    returns [undefined], the base URL of the transport is the configured
    one, and the directory was never queried. *)
Theorem fixed_baseUrl_never_selects
    (w : World) (opts : IClient.IOptions) (n : nat) (steps : list Step) :
  truthy (IClient.baseUrl opts) = true ->
  operator (client (run w opts n (boot w opts n) steps)) = None /\
  baseURL (client (run w opts n (boot w opts n) steps)) = IClient.baseUrl opts /\
  filter is_selection (trace (client (run w opts n (boot w opts n) steps))) = [].
Proof.
  intros Hfixed.
  assert (Hboot : pinned_at opts (client (boot w opts n))).
  { unfold boot. cbn [client].
    rewrite onModuleInit_eq, startup_eq, resolveBaseUrl_eq, Hfixed.
    assert (H0 : pinned_at opts (with_baseURL initial (IClient.baseUrl opts)))
      by (repeat split).
    cbn [baseURL with_baseURL].
    destruct (IClient.baseUrl opts) as [u|] eqn:Hu; [|discriminate].
    destruct (startsWith u "http"); [|exact H0].
    rewrite <- Hu in Hfixed.
    pose proof (connectToNode_pinned w opts n
                  (connecting (with_baseURL initial (Some u)) u) Hfixed
                  (pinned_at_events opts _
                     [LoggerVerbose ("trying to connect with " ++ u ++ "...")]
                     H0 eq_refl)) as Hc.
    destruct (connectToNode w opts n _) as [l s2|e s2|s2]; cbn [state_of] in *.
    - destruct Hc as (Ho & Hb & Hs). repeat split; try assumption.
      unfold connected. cbn [trace with_trace]. now rewrite filter_app, Hs.
    - now apply pinned_at_events.
    - exact Hc. }
  revert Hboot. generalize (boot w opts n). 
  induction steps as [|st steps IH]; intros sys Hp; [exact Hp|].
  cbn [run fold_left]. apply IH. now apply step_pinned.
Qed.

Lemma fixed_baseUrl_never_selects_witness :
  operator (Scheduler.client
              (Scheduler.run Examples.healthy Examples.pinned 1
                 (Scheduler.boot Examples.healthy Examples.pinned 1)
                 [Scheduler.Fire 4; Scheduler.Fire 4;
                  Scheduler.Settle 0; Scheduler.Settle 0])) = None /\
  baseURL (Scheduler.client
             (Scheduler.run Examples.healthy Examples.pinned 1
                (Scheduler.boot Examples.healthy Examples.pinned 1)
                [Scheduler.Fire 4; Scheduler.Fire 4;
                 Scheduler.Settle 0; Scheduler.Settle 0])) = Some "http://node-a".
Proof.
  destruct (fixed_baseUrl_never_selects Examples.healthy Examples.pinned 1
              [Scheduler.Fire 4; Scheduler.Fire 4; Scheduler.Settle 0; Scheduler.Settle 0]
              eq_refl) as (Ho & Hu & _).
  split; [exact Ho | exact Hu].
Defined.

(* ================================================================== *)
(** * Startup and the life of the monitor *)
(* ================================================================== *)

(** A resolved [connectToNode] ends with the last attempt: the login POST
    answered with the credential, then the timer. *)
Lemma connectToNode_returned w opts n : forall s l s',
  connectToNode w opts n s = Returned l s' ->
  exists tr signed,
    trace s' = tr ++ [HttpPost (baseURL s') "/auth/web3/login" signed;
                      SetInterval (S (length tr))] /\
    axios_post w (length tr) (baseURL s') "/auth/web3/login" signed = Resolved l.
Proof.
  induction n as [|n IH]; intros s l s' H; [discriminate|].
  cbn [connectToNode] in H. unfold try_catch in H.
  destruct (handshake w opts s) as [l1 s1|e s1|s1] eqn:Hh; [| |discriminate].
  - injection H as <- <-. rewrite handshake_eq in Hh. cbv zeta in Hh.
    destruct (axios_get w _ _ _) as [data|e]; [|discriminate].
    destruct (payload_of data) as [payload|e]; [|discriminate].
    destruct (PrivateKey_fromString w _) as [k|e]; [|discriminate].
    destruct (axios_post w _ _ _ _) as [l|e] eqn:Hpost; [|discriminate].
    injection Hh as <- <-. cbn [trace baseURL with_trace].
    exists (trace s ++ [HttpGet (baseURL s) "/auth/web3/request";
                        Sign (signing_bytes payload)]).
    eexists. split.
    + rewrite <- app_assoc. cbn [app]. rewrite length_app. cbn [length].
      rewrite !Nat.add_succ_r, Nat.add_0_r. reflexivity.
    + rewrite length_app. cbn [length]. rewrite !Nat.add_succ_r, Nat.add_0_r.
      exact Hpost.
  - destruct (truthy (IClient.baseUrl opts)); [discriminate|].
    unfold bind in H.
    destruct (networkResilience w e s1) as [[] s2|e2 s2|s2]; try discriminate.
    now apply IH in H.
Qed.

(** X8.  On a fresh service [onModuleInit] ends in one of two ways.
    Either no health check is scheduled and [login] is still [undefined];
    or it returned after the line "connected to node", exactly one health
    check is scheduled, the one registered right after the login request,
    and [login] is the body with which that login request was answered. *)
Theorem startup_schedules_iff_authenticated
    (w : World) (opts : IClient.IOptions) (n : nat) :
  (timers (trace (state_of (onModuleInit w opts n initial))) = [] /\
   login (state_of (onModuleInit w opts n initial)) = JUndefined) \/
  (exists tr signed,
     onModuleInit w opts n initial
       = Returned tt (state_of (onModuleInit w opts n initial)) /\
     trace (state_of (onModuleInit w opts n initial))
       = tr ++ [HttpPost (baseURL (state_of (onModuleInit w opts n initial)))
                  "/auth/web3/login" signed;
                SetInterval (S (length tr));
                LoggerVerbose
                  ("connected to node: "
                     ++ template (baseURL (state_of (onModuleInit w opts n initial))))] /\
     timers (trace (state_of (onModuleInit w opts n initial))) = [S (length tr)] /\
     axios_post w (length tr) (baseURL (state_of (onModuleInit w opts n initial)))
       "/auth/web3/login" signed
       = Resolved (login (state_of (onModuleInit w opts n initial)))).
Proof.
  rewrite onModuleInit_eq, startup_eq.
  pose proof (resolveBaseUrl_shape w opts initial) as Hr.
  destruct (resolveBaseUrl w opts initial) as [[] s1|e s1|s1]; [| |contradiction];
    destruct Hr as (sel & Hl & Ht & Hsel); apply selection_no_timer in Hsel;
    cbn [trace initial app _login] in Hl, Ht.
  2:{ left. cbn [state_of]. unfold logged. cbn [trace with_trace login _login].
      rewrite Ht, timers_no_timer by repeat constructor.
      split; [now apply (timers_no_timer []) | exact Hl]. }
  destruct (baseURL s1) as [u|].
  2:{ left. cbn [state_of]. unfold logged. cbn [trace with_trace login _login].
      rewrite Ht, timers_no_timer by repeat constructor.
      split; [now apply (timers_no_timer []) | exact Hl]. }
  destruct (startsWith u "http").
  2:{ left. cbn [state_of]. rewrite Ht.
      split; [now apply (timers_no_timer []) | exact Hl]. }
  pose proof (connectToNode_shape w opts n (connecting s1 u)) as Hc.
  assert (Hquiet : timers (trace (connecting s1 u)) = []).
  { unfold connecting. cbn [trace with_trace]. rewrite Ht.
    rewrite timers_no_timer by repeat constructor. now apply (timers_no_timer []). }
  destruct (connectToNode w opts n (connecting s1 u)) as [l s2|e s2|s2] eqn:Hcon;
    cbn [settles_like state_of] in *.
  - right. destruct Hc as (pre & i & _ & Htr & Hpre).
    destruct (connectToNode_returned w opts n _ _ _ Hcon) as (tr & signed & Htr2 & Hpost).
    exists tr, signed. unfold connected. cbn [trace baseURL with_trace with_login login _login].
    repeat split.
    + rewrite Htr2, <- app_assoc. reflexivity.
    + assert (Hi : i = S (length tr)).
      { rewrite Htr, app_assoc in Htr2.
        change [HttpPost (baseURL s2) "/auth/web3/login" signed;
                SetInterval (S (length tr))]
          with ([HttpPost (baseURL s2) "/auth/web3/login" signed]
                  ++ [SetInterval (S (length tr))]) in Htr2.
        rewrite (app_assoc tr) in Htr2. apply app_inj_tail in Htr2.
        now destruct Htr2 as [_ [= ->]]. }
      rewrite timers_app. cbn [fold_left timer_step].
      rewrite Htr, app_assoc, timers_app, timers_no_timer, Hquiet by exact Hpre.
      cbn [fold_left timer_step app]. now rewrite Hi.
    + exact Hpost.
  - left. destruct Hc as (pre & Hlg & Htr & Hpre). unfold logged.
    cbn [trace with_trace login _login].
    rewrite timers_no_timer by repeat constructor.
    rewrite Htr, timers_no_timer, Hquiet by exact Hpre. split; [reflexivity|].
    rewrite Hlg. exact Hl.
  - left. destruct Hc as (pre & Hlg & Htr & Hpre). unfold login.
    rewrite Htr, timers_no_timer, Hquiet by exact Hpre. split; [reflexivity|].
    rewrite Hlg. exact Hl.
Qed.



Lemma only_checked_refl s : only_checked s s.
Proof. repeat split. Qed.

Lemma only_checked_trans a b c : only_checked a b -> only_checked b c -> only_checked a c.
Proof.
  intros (H1 & H2 & H3 & H4 & H5) (K1 & K2 & K3 & K4 & K5).
  repeat split; congruence.
Qed.

Lemma Forall_remove_nth {A} (P : A -> Prop) k : forall xs,
  Forall P xs -> Forall P (remove_nth k xs).
Proof.
  induction k as [|k IH]; intros [|x xs] H; cbn; try constructor;
    inversion H; subst; auto.
Qed.

Lemma step_only_checked w opts n sys st :
  (forall t base, exists p, axios_get w t base "/auth/profile" = Resolved p) ->
  Forall (fun ir => exists p, snd ir = Resolved p) (inflight sys) ->
  Forall (fun ir => exists p, snd ir = Resolved p) (inflight (step w opts n sys st)) /\
  only_checked (client sys) (client (step w opts n sys st)).
Proof.
  intros Hprof Hin. destruct st as [i|k]; cbn [step].
  - destruct (existsb _ _); [|split; [exact Hin | apply only_checked_refl]].
    rewrite profile_request_eq. cbn [client inflight]. split.
    + apply Forall_app. split; [exact Hin|]. constructor; [|constructor].
      apply Hprof.
    + repeat split; cbn [trace with_trace].
      * now rewrite timers_no_timer by repeat constructor.
      * rewrite count_app. cbn. lia.
  - destruct (nth_error (inflight sys) k) as [[i r]|] eqn:Hk;
      [|split; [exact Hin | apply only_checked_refl]].
    cbn [client inflight]. split; [now apply Forall_remove_nth|].
    rewrite healthCheck_resume_eq.
    apply nth_error_In in Hk. rewrite Forall_forall in Hin.
    destruct (Hin _ Hk) as [p Hp]. cbn [snd] in Hp. subst r.
    repeat split; cbn [trace with_trace].
    + now rewrite timers_no_timer by repeat constructor.
    + rewrite count_app. cbn. lia.
Qed.

(** X11.  As long as every health check is answered, the monitor changes
    nothing, under any schedule (overlapping checks included): [login],
    [operator], the base URL and the scheduled timers stay as
    [onModuleInit] left them and no challenge request is sent. *)
Theorem healthy_session_is_never_reauthenticated
    (w : World) (opts : IClient.IOptions) (n : nat) (steps : list Step) :
  (forall t base, exists p, axios_get w t base "/auth/profile" = Resolved p) ->
  login (client (run w opts n (boot w opts n) steps)) = login (client (boot w opts n)) /\
  operator (client (run w opts n (boot w opts n) steps))
    = operator (client (boot w opts n)) /\
  baseURL (client (run w opts n (boot w opts n) steps)) = baseURL (client (boot w opts n)) /\
  timers (trace (client (run w opts n (boot w opts n) steps)))
    = timers (trace (client (boot w opts n))) /\
  count is_challenge (trace (client (run w opts n (boot w opts n) steps)))
    = count is_challenge (trace (client (boot w opts n))).
Proof.
  intros Hprof.
  assert (H : forall sys,
             Forall (fun ir => exists p, snd ir = Resolved p) (inflight sys) ->
             only_checked (client sys) (client (run w opts n sys steps))).
  { induction steps as [|st steps IH]; intros sys Hin; [apply only_checked_refl|].
    cbn [run fold_left].
    destruct (step_only_checked w opts n sys st Hprof Hin) as [Hin' Hoc].
    eapply only_checked_trans; [exact Hoc | now apply IH]. }
  apply (H (boot w opts n)). constructor.
Qed.

Lemma healthy_session_is_never_reauthenticated_witness :
  timers (trace (Scheduler.client
                   (Scheduler.run Scenarios.steady Examples.pinned 1
                      (Scheduler.boot Scenarios.steady Examples.pinned 1)
                      [Scheduler.Fire 4; Scheduler.Fire 4;
                       Scheduler.Settle 1; Scheduler.Settle 0])))
    = timers (trace (Scheduler.client (Scheduler.boot Scenarios.steady Examples.pinned 1))) /\
  login (Scheduler.client
           (Scheduler.run Scenarios.steady Examples.pinned 1
              (Scheduler.boot Scenarios.steady Examples.pinned 1)
              [Scheduler.Fire 4; Scheduler.Fire 4;
               Scheduler.Settle 1; Scheduler.Settle 0]))
    = login (Scheduler.client (Scheduler.boot Scenarios.steady Examples.pinned 1)).
Proof.
  destruct (healthy_session_is_never_reauthenticated Scenarios.steady Examples.pinned 1
              [Scheduler.Fire 4; Scheduler.Fire 4; Scheduler.Settle 1; Scheduler.Settle 0])
    as (Hl & _ & _ & Ht & _).
  - intros t base. exists (JObject [("accountId", JString "0.0.7")]). reflexivity.
  - split; [exact Ht | exact Hl].
Defined.

Lemma exchange_no_logger evs :
  Forall (fun e => is_exchange e = true) evs -> filter is_logger evs = [].
Proof.
  induction 1 as [|e evs He _ IH]; [reflexivity|].
  cbn. destruct e; try discriminate; exact IH.
Qed.

Lemma selection_no_logger evs :
  Forall (fun e => is_selection e = true) evs -> filter is_logger evs = [].
Proof.
  induction 1 as [|e evs He _ IH]; [reflexivity|].
  cbn. destruct e; try discriminate; exact IH.
Qed.

Lemma connectToNode_no_logger w opts n : forall s,
  filter is_logger (trace (state_of (connectToNode w opts n s)))
  = filter is_logger (trace s).
Proof.
  induction n as [|n IH]; intros s; [reflexivity|].
  cbn [connectToNode]. unfold try_catch.
  pose proof (handshake_shape w opts s) as Hh.
  destruct (handshake w opts s) as [l s1|e s1|s1]; [| |contradiction].
  - destruct Hh as (pre & -> & Hpre). cbn [state_of trace with_trace].
    now rewrite !filter_app, (exchange_no_logger _ Hpre), app_nil_r.
  - destruct Hh as (pre & -> & Hpre).
    assert (E : filter is_logger (trace (with_trace s (trace s ++ pre)))
                = filter is_logger (trace s)).
    { cbn [trace with_trace]. now rewrite filter_app, (exchange_no_logger _ Hpre), app_nil_r. }
    destruct (truthy (IClient.baseUrl opts)); [exact E|].
    unfold bind.
    pose proof (networkResilience_shape w e (with_trace s (trace s ++ pre))) as Hr.
    destruct (networkResilience w e _) as [[] s2|e2 s2|s2]; [| |contradiction];
      destruct Hr as (sel & _ & Ht & Hsel).
    + rewrite IH, Ht, filter_app, (selection_no_logger _ Hsel), app_nil_r. exact E.
    + cbn [state_of]. rewrite Ht, filter_app, (selection_no_logger _ Hsel), app_nil_r.
      exact E.
Qed.

(** X12.  The monitor never writes to the logger: whatever the health
    checks and the re-authentications do (failures included), no
    [logger.verbose] and no [logger.error] line is added after
    [onModuleInit]. *)
Theorem monitor_never_logs
    (w : World) (opts : IClient.IOptions) (n : nat) (steps : list Step) (sys : Sys) :
  filter is_logger (trace (client (run w opts n sys steps)))
  = filter is_logger (trace (client sys)).
Proof.
  revert sys. induction steps as [|st steps IH]; intros sys; [reflexivity|].
  cbn [run fold_left]. unfold run in IH. rewrite IH.
  destruct st as [i|k]; cbn [step].
  - destruct (existsb _ _); [|reflexivity]. rewrite profile_request_eq. cbn [client].
    cbn [trace with_trace]. now rewrite filter_app, app_nil_r.
  - destruct (nth_error (inflight sys) k) as [[i r]|]; [|reflexivity]. cbn [client].
    rewrite healthCheck_resume_eq. destruct r as [p|e].
    + cbn [trace with_trace]. now rewrite filter_app, app_nil_r.
    + rewrite connectToNode_no_logger. cbn [trace with_trace].
      now rewrite filter_app, app_nil_r.
Qed.

(** X13.  When the configured private key cannot be parsed, no run of
    [connectToNode] ever resolves, signs anything, posts a login or
    registers a health check, however many nodes the failover tries. *)
Theorem invalid_key_never_signs
    (w : World) (opts : IClient.IOptions) (e : JsError) (n : nat) :
  PrivateKey_fromString w (IClient.privateKey (IClient.operator opts)) = Rejected e ->
  forall s,
    (forall l s', connectToNode w opts n s <> Returned l s') /\
    filter is_signature_or_login (trace (state_of (connectToNode w opts n s)))
    = filter is_signature_or_login (trace s) /\
    timers (trace (state_of (connectToNode w opts n s))) = timers (trace s).
Proof.
  intros Hkey. induction n as [|n IH]; intros s.
  - repeat split. discriminate.
  - assert (Hh : exists e1,
               handshake w opts s
               = Thrown e1 (with_trace s
                              (trace s ++ [HttpGet (baseURL s) "/auth/web3/request"]))).
    { rewrite handshake_eq. cbv zeta. rewrite Hkey.
      destruct (axios_get w _ _ _) as [data|e1]; [|now exists e1].
      destruct (payload_of data) as [payload|e1]; [now exists e|now exists e1]. }
    destruct Hh as [e1 Hh].
    cbn [connectToNode]. unfold try_catch. rewrite Hh.
    assert (E : filter is_signature_or_login
                  (trace (with_trace s
                            (trace s ++ [HttpGet (baseURL s) "/auth/web3/request"])))
                = filter is_signature_or_login (trace s)
                /\ timers (trace (with_trace s
                            (trace s ++ [HttpGet (baseURL s) "/auth/web3/request"])))
                   = timers (trace s)).
    { cbn [trace with_trace]. rewrite filter_app, app_nil_r.
      now rewrite timers_no_timer by repeat constructor. }
    destruct E as [E1 E2].
    destruct (truthy (IClient.baseUrl opts)); [repeat split; try discriminate; assumption|].
    unfold bind.
    pose proof (networkResilience_shape w e1
                  (with_trace s (trace s ++ [HttpGet (baseURL s) "/auth/web3/request"])))
      as Hr.
    destruct (networkResilience w e1 _) as [[] s2|e2 s2|s2]; [| |contradiction];
      destruct Hr as (sel & _ & Ht & Hsel).
    + destruct (IH s2) as (Hne & Hf & Htm). split; [exact Hne|].
      rewrite Hf, Htm, Ht, filter_app, timers_no_timer by now apply selection_no_timer.
      split; [|exact E2]. rewrite <- E1. f_equal.
      assert (filter is_signature_or_login sel = []) as ->; [|now rewrite app_nil_r].
      clear -Hsel. induction Hsel as [|x xs Hx _ IHx]; [reflexivity|].
      cbn. destruct x; try discriminate; exact IHx.
    + cbn [state_of]. split; [discriminate|].
      rewrite Ht, filter_app, timers_no_timer by now apply selection_no_timer.
      split; [|exact E2]. rewrite <- E1. 
      assert (filter is_signature_or_login sel = []) as ->; [|now rewrite app_nil_r].
      clear -Hsel. induction Hsel as [|x xs Hx _ IHx]; [reflexivity|].
      cbn. destruct x; try discriminate; exact IHx.
Qed.

Lemma invalid_key_never_signs_witness :
  (forall l s',
     connectToNode Scenarios.keyless Examples.dynamic 3 initial <> Returned l s') /\
  filter is_signature_or_login
    (trace (state_of (connectToNode Scenarios.keyless Examples.dynamic 3 initial))) = [].
Proof.
  destruct (invalid_key_never_signs Scenarios.keyless Examples.dynamic Examples.bad_key 3
              eq_refl initial) as (Hne & Hf & _).
  split; [exact Hne | exact Hf].
Defined.
